(** * Chatbot backend (backend_python): message validation and reply engine

    Shallow embedding of [schemas.py] ([ChatRequest] and its field
    validator) and of the [chat] endpoint of [main.py].

    A Python [str] is a sequence of Unicode code points; it is modelled as
    [list N].  String literals of the source are written as UTF-8 Rocq
    strings and decoded to code points by [u].  The character predicates
    of the Unicode database used by the code ([str.isalnum], [str.isspace],
    [str.lower]) are parameters of the development (a [Section]); a concrete
    table exact on the Latin-1 block is given for running examples. *)

From Stdlib Require Import ZArith QArith List Bool Ascii String Lia.
From Stdlib Require Import DecimalString.
Import ListNotations.

Open Scope N_scope.

(** ** Python strings as code points *)

Definition str := list N.

(** UTF-8 decoding of a byte sequence (well-formed input assumed: it is
    only used on the literals of this file). *)
Fixpoint utf8_decode (l : list N) : str :=
  match l with
  | [] => []
  | b0 :: r =>
      if b0 <? 128 then b0 :: utf8_decode r
      else if b0 <? 224 then
        match r with
        | b1 :: r1 => ((b0 - 192) * 64 + (b1 - 128)) :: utf8_decode r1
        | [] => []
        end
      else if b0 <? 240 then
        match r with
        | b1 :: b2 :: r2 =>
            ((b0 - 224) * 4096 + (b1 - 128) * 64 + (b2 - 128)) :: utf8_decode r2
        | _ => []
        end
      else
        match r with
        | b1 :: b2 :: b3 :: r3 =>
            ((b0 - 240) * 262144 + (b1 - 128) * 4096 + (b2 - 128) * 64
             + (b3 - 128)) :: utf8_decode r3
        | _ => []
        end
  end.

(** A source literal. *)
Definition u (s : string) : str :=
  utf8_decode (map N_of_ascii (list_ascii_of_string s)).

(** [needle in haystack] for [str]. *)
Fixpoint is_prefix (p s : str) : bool :=
  match p, s with
  | [], _ => true
  | _ :: _, [] => false
  | a :: p', b :: s' => N.eqb a b && is_prefix p' s'
  end.

Fixpoint contains (needle hay : str) : bool :=
  is_prefix needle hay ||
  match hay with
  | [] => false
  | _ :: hay' => contains needle hay'
  end.

(** ** Results and pydantic field errors *)

Inductive result (A E : Type) : Type :=
| Ok (a : A)
| Err (e : E).
Arguments Ok {A E} a.
Arguments Err {A E} e.

(** The error kinds pydantic reports for the [message] field. *)
Inductive field_error : Type :=
| Missing                  (* field absent: [missing] *)
| StringType               (* not a string: [string_type] *)
| StringTooShort (n : nat) (* [min_length] violated: [string_too_short] *)
| StringTooLong (n : nat)  (* [max_length] violated: [string_too_long] *)
| ValueError (msg : str).  (* raised by the [field_validator] *)

(** A JSON value in the position of a request field. *)
Inductive json_field : Type :=
| Absent
| JNull
| JString (s : str)
| JOther.

(** The two messages of [ChatRequest.validate_message]. *)
Definition msg_empty : str :=
  u "Mensagem não pode estar vazia ou conter apenas espaços".
Definition msg_alnum : str :=
  u "Mensagem deve conter pelo menos um caractere alfanumérico".

(** The error names of the spec's taxonomy, as the code raises them. *)
Definition MissingField : field_error := Missing.
Definition EmptyMessage : field_error := ValueError msg_empty.
Definition NoAlphanumericContent : field_error := ValueError msg_alnum.
Definition TooLong : field_error := StringTooLong 1000.

(** The request model. *)
Record ChatRequest := mkChatRequest {
  message : str;
  user_id : option str
}.

(** A JSON request body: the two fields of [ChatRequest]. *)
Record raw_request := mkRaw {
  raw_message : json_field;
  raw_user_id : json_field
}.

Section Validation.

(** The Unicode database as CPython uses it. *)
Variable isalnum : N -> bool.
Variable isspace : N -> bool.

(** [str.strip()] with no argument: drop the [isspace] code points at both
    ends. *)
Fixpoint lstrip (s : str) : str :=
  match s with
  | [] => []
  | c :: s' => if isspace c then lstrip s' else s
  end.

Definition rstrip (s : str) : str := rev (lstrip (rev s)).

Definition strip (s : str) : str := rstrip (lstrip s).

(** [ChatRequest.validate_message] (schemas.py), the [field_validator] in
    "after" mode:
<<
        v = v.strip()
        if not v:
            raise ValueError('Mensagem não pode estar vazia ou conter apenas espaços')
        if not any(c.isalnum() for c in v):
            raise ValueError('Mensagem deve conter pelo menos um caractere alfanumérico')
        return v
>> *)
Definition validate_message (v0 : str) : result str field_error :=
  let v := strip v0 in
  match v with
  | [] => Err (ValueError msg_empty)
  | _ =>
      if negb (existsb isalnum v) then Err (ValueError msg_alnum)
      else Ok v
  end.

(** [message: str = Field(..., min_length=1, max_length=1000)] followed by
    the after-validator: pydantic checks the type, then [min_length], then
    [max_length] on the raw string (length in code points), and only then
    runs [validate_message]. *)
Definition message_min_length : nat := 1.
Definition message_max_length : nat := 1000.

Definition validate_message_field (f : json_field) : result str field_error :=
  match f with
  | Absent => Err Missing
  | JNull | JOther => Err StringType
  | JString s =>
      if Nat.ltb (List.length s) message_min_length
      then Err (StringTooShort message_min_length)
      else if Nat.ltb message_max_length (List.length s)
      then Err (StringTooLong message_max_length)
      else validate_message s
  end.

(** [user_id: Optional[str] = Field(None)]: no constraint. *)
Definition validate_user_id (f : json_field) : result (option str) field_error :=
  match f with
  | Absent | JNull => Ok None
  | JString s => Ok (Some s)
  | JOther => Err StringType
  end.

(** Model validation of a request body: every field is validated and the
    errors are collected with their location. *)
Definition parse_request (r : raw_request)
  : result ChatRequest (list (str * field_error)) :=
  match validate_message_field (raw_message r), validate_user_id (raw_user_id r) with
  | Ok m, Ok uid => Ok (mkChatRequest m uid)
  | Err e, Ok _ => Err [(u "message", e)]
  | Ok _, Err e' => Err [(u "user_id", e')]
  | Err e, Err e' => Err [(u "message", e); (u "user_id", e')]
  end.

End Validation.


(** ** The reply engine ([main.py]) *)

(** [BOT_RESPONSES]. *)
Definition BOT_RESPONSES : list str := [
  u "Interessante! Me conte mais sobre isso.";
  u "Entendo o que você está dizendo.";
  u "Isso é muito legal! Continue...";
  u "Hmm, deixe-me pensar sobre isso...";
  u "Ótima pergunta! Aqui está o que penso:";
  u "Posso ajudar você com isso!";
  u "Isso me lembra de algo importante.";
  u "Vamos explorar essa ideia juntos!"
].

(** The four fixed contextual replies. *)
Definition reply_greeting : str := u "Olá! Como posso ajudar você hoje? 😊".
Definition reply_wellbeing : str :=
  u "Estou muito bem, obrigado por perguntar! E você, como está?".
Definition reply_farewell : str := u "Até logo! Foi um prazer conversar com você! 👋".
Definition reply_help : str := u "Claro! Estou aqui para ajudar. O que você precisa?".

(** [f'Boa pergunta! Sobre "{message}", eu diria que é um tópico interessante para explorarmos.'];
    code point 34 is the double quote. *)
Definition reply_question (message : str) : str :=
  u "Boa pergunta! Sobre " ++ [34] ++ message ++ [34]
  ++ u ", eu diria que é um tópico interessante para explorarmos.".

(** The contextual override of [chat], lines 97-106:
<<
    if "olá" in message_lower or "oi" in message_lower: ...
    elif "como vai" in message_lower: ...
    elif "tchau" in message_lower or "adeus" in message_lower: ...
    elif "ajuda" in message_lower: ...
    elif "?" in message: ...
>>
    [reply] is the value [random.choice(BOT_RESPONSES)] assigned before. *)
Definition select_reply (message message_lower reply : str) : str :=
  if contains (u "olá") message_lower || contains (u "oi") message_lower
  then reply_greeting
  else if contains (u "como vai") message_lower then reply_wellbeing
  else if contains (u "tchau") message_lower || contains (u "adeus") message_lower
  then reply_farewell
  else if contains (u "ajuda") message_lower then reply_help
  else if contains (u "?") message then reply_question message
  else reply.

(** *** Double-precision arithmetic of the delay

    [random.random()] returns [k * 2^-53] for an integer [0 <= k < 2^53];
    every value here is a dyadic [m * 2^-53] and is kept as its numerator
    [m].  [round_ne_53 m] is IEEE-754 round-to-nearest-even of [m * 2^-53]
    to a 53-bit significand (no overflow or subnormal case arises for the
    values of [chat]). *)
Open Scope Z_scope.

Definition two53 : Z := 2 ^ 53.

Definition round_ne_53 (m : Z) : Z :=
  let b := Z.log2 m + 1 in
  if b <=? 53 then m
  else
    let s := b - 53 in
    let q := Z.shiftr m s in
    let rem := m - Z.shiftl q s in
    let half := Z.shiftl 1 (s - 1) in
    let q' := if rem <? half then q
              else if half <? rem then q + 1
              else if Z.even q then q else q + 1 in
    Z.shiftl q' s.

(** [delay = 0.5 + random.random()], as a numerator over [2^53]. *)
Definition delay_of (k : Z) : Z := round_ne_53 (2 ^ 52 + k).

(** *** Decimal rounding and time stamps *)

(** Round half to even of a rational to an integer. *)
Definition round_half_even (x : Q) : Z :=
  let q := Qnum x / Zpos (Qden x) in
  let r := Qnum x - q * Zpos (Qden x) in
  let d := Zpos (Qden x) in
  if 2 * r <? d then q
  else if d <? 2 * r then q + 1
  else if Z.even q then q else q + 1.

(** [round(x, 3)], as its number of thousandths. *)
Definition round3 (x : Q) : Z := round_half_even (x * (1000 # 1)).

(** [datetime] (naive) and [datetime.isoformat()]. *)
Record datetime := mkDatetime {
  dt_year : Z; dt_month : Z; dt_day : Z;
  dt_hour : Z; dt_minute : Z; dt_second : Z; dt_microsecond : Z
}.

Definition decimal (n : Z) : str :=
  u (NilEmpty.string_of_int (Z.to_int n)).

(** [%0<w>d] for [n >= 0]. *)
Definition zpad (w : nat) (n : Z) : str :=
  let ds := decimal n in
  repeat 48%N (w - List.length ds) ++ ds.

Definition isoformat (d : datetime) : str :=
  zpad 4 (dt_year d) ++ u "-" ++ zpad 2 (dt_month d) ++ u "-" ++ zpad 2 (dt_day d)
  ++ u "T" ++ zpad 2 (dt_hour d) ++ u ":" ++ zpad 2 (dt_minute d)
  ++ u ":" ++ zpad 2 (dt_second d)
  ++ (if dt_microsecond d =? 0 then [] else u "." ++ zpad 6 (dt_microsecond d)).

(** [ChatResponse]; [processing_time] is kept as the decimal value that
    [round(processing_time, 3)] denotes, in thousandths. *)
Record ChatResponse := mkChatResponse {
  reply : str;
  timestamp : str;
  message_length : option Z;
  processing_time : option Z
}.

(** Effects of [chat] other than its result: the two [logger.info] calls
    (their fields, not the formatted text) and the [asyncio.sleep]. *)
Inductive event : Type :=
| LogReceived (msg : str) (uid : option str)
| Sleep (delay : Z)                      (* seconds = delay / 2^53 *)
| LogSent (reply_prefix : str) (time_thousandths : Z).

(** The readings of the clocks during one call: the two [time.time()]
    values (as the exact rationals the doubles denote) and
    [datetime.utcnow()]. *)
Record clock := mkClock {
  t_start : Q;
  t_end : Q;
  utc_now : datetime
}.

Inductive http_response : Type :=
| HTTP200 (r : ChatResponse)
| HTTP422 (errors : list (str * field_error)).

Section Chat.

(** The Mersenne Twister of [random]: its state and [genrand_uint32]. *)
Variable rng : Type.
Variable genrand_uint32 : rng -> Z * rng.

(** [str.lower()] (a whole-string map: CPython's lower is context
    dependent for the final sigma). *)
Variable lower : str -> str.

(** The output word of [genrand_uint32], a C [uint32_t]. *)
Definition uint32 (w : Z) : Z := w mod 2 ^ 32.

(** [random.random()] (CPython [random_random]):
<<
    uint32_t a=genrand_uint32(self)>>5, b=genrand_uint32(self)>>6;
    return (a*67108864.0+b)*(1.0/9007199254740992.0);
>>
    returned as the numerator [k] of [k * 2^-53]. *)
Definition random_random (g : rng) : Z * rng :=
  let (w1, g1) := genrand_uint32 g in
  let (w2, g2) := genrand_uint32 g1 in
  let a := Z.shiftr (uint32 w1) 5 in
  let b := Z.shiftr (uint32 w2) 6 in
  (a * 67108864 + b, g2).

(** [random.getrandbits(k)] for [0 < k <= 32]. *)
Definition getrandbits (k : Z) (g : rng) : Z * rng :=
  let (w, g') := genrand_uint32 g in (Z.shiftr (uint32 w) (32 - k), g').

(** [Random._randbelow_with_getrandbits(n)]:
<<
        k = n.bit_length()
        r = getrandbits(k)
        while r >= n:
            r = getrandbits(k)
        return r
>>
    The rejection loop need not terminate; [fuel] bounds its iterations
    and [None] stands for a call that has not returned. *)
Fixpoint randbelow_loop (fuel : nat) (n k r : Z) (g : rng) : option (Z * rng) :=
  if r <? n then Some (r, g)
  else match fuel with
       | O => None
       | S fuel' => let (r', g') := getrandbits k g in randbelow_loop fuel' n k r' g'
       end.

Definition randbelow (fuel : nat) (n : Z) (g : rng) : option (Z * rng) :=
  let k := Z.log2 n + 1 in
  let (r, g') := getrandbits k g in
  randbelow_loop fuel n k r g'.

(** [random.choice(seq)] = [seq[self._randbelow(len(seq))]]. *)
Definition random_choice (fuel : nat) (seq : list str) (g : rng) : option (str * rng) :=
  match randbelow fuel (Z.of_nat (List.length seq)) g with
  | None => None
  | Some (i, g') =>
      match nth_error seq (Z.to_nat i) with
      | Some x => Some (x, g')
      | None => None
      end
  end.

(** [chat] (main.py, lines 65-119).  Returns the response, the effects in
    order and the generator state after the call. *)
Definition chat (fuel : nat) (clk : clock) (g : rng) (request : ChatRequest)
  : option (ChatResponse * list event * rng) :=
  let start_time := t_start clk in
  let ev_received := LogReceived (message request) (user_id request) in
  let message := message request in
  let message_lower := lower message in
  let (k, g1) := random_random g in
  let delay := delay_of k in
  match random_choice fuel BOT_RESPONSES g1 with
  | None => None
  | Some (reply0, g2) =>
      let reply := select_reply message message_lower reply0 in
      let processing_time := (t_end clk - start_time)%Q in
      let resp := mkChatResponse reply (isoformat (utc_now clk) ++ u "Z")
                    (Some (Z.of_nat (List.length message)))
                    (Some (round3 processing_time)) in
      Some (resp,
            [ev_received; Sleep delay; LogSent (firstn 50 reply) (round3 processing_time)],
            g2)
  end.

Variable isalnum : N -> bool.
Variable isspace : N -> bool.

(** [POST /api/chat]: request validation (422 on failure, no effect), then
    [chat]. *)
Definition post_chat (fuel : nat) (clk : clock) (g : rng) (r : raw_request)
  : option (http_response * list event * rng) :=
  match parse_request isalnum isspace r with
  | Err errs => Some (HTTP422 errs, [], g)
  | Ok request =>
      match chat fuel clk g request with
      | None => None
      | Some (resp, evs, g') => Some (HTTP200 resp, evs, g')
      end
  end.

End Chat.

Arguments random_random {rng} genrand_uint32 g.
Arguments getrandbits {rng} genrand_uint32 k g.
Arguments randbelow_loop {rng} genrand_uint32 fuel n k r g.
Arguments randbelow {rng} genrand_uint32 fuel n g.
Arguments random_choice {rng} genrand_uint32 fuel seq g.
Arguments chat {rng} genrand_uint32 lower fuel clk g request.
Arguments post_chat {rng} genrand_uint32 lower isalnum isspace fuel clk g r.

(** ** The reply ladder as the spec states it *)

Inductive branch : Type :=
| Greeting | WellBeing | Farewell | Help | Question | Fallback.

(** Spec 4.2: first match wins, substring tests on the lower-cased message
    for rules 1-4, on the original message for rule 5. *)
Definition spec_branch (message message_lower : str) : branch :=
  if contains (u "olá") message_lower || contains (u "oi") message_lower then Greeting
  else if contains (u "como vai") message_lower then WellBeing
  else if contains (u "tchau") message_lower || contains (u "adeus") message_lower
  then Farewell
  else if contains (u "ajuda") message_lower then Help
  else if contains (u "?") message then Question
  else Fallback.

Definition spec_reply (message : str) (b : branch) (fallback : str) : str :=
  match b with
  | Greeting => reply_greeting
  | WellBeing => reply_wellbeing
  | Farewell => reply_farewell
  | Help => reply_help
  | Question => reply_question message
  | Fallback => fallback
  end.

(** ** A concrete Unicode table and generator for running examples *)

(** [str.isalnum], [str.isspace] and [str.lower] on the Latin-1 block
    (code points below 256), where they agree with CPython; other code
    points are treated as neither alphanumeric nor space and are left
    unchanged by [lower]. *)
Definition latin1_isalnum (c : N) : bool :=
  (((48 <=? c) && (c <=? 57)) || ((65 <=? c) && (c <=? 90))
  || ((97 <=? c) && (c <=? 122))
  || existsb (N.eqb c) [170; 178; 179; 181; 185; 186; 188; 189; 190]
  || ((192 <=? c) && (c <=? 214)) || ((216 <=? c) && (c <=? 246))
  || ((248 <=? c) && (c <=? 255)))%N.

Definition latin1_isspace (c : N) : bool :=
  (((9 <=? c) && (c <=? 13)) || ((28 <=? c) && (c <=? 32))
   || (c =? 133) || (c =? 160))%N.

Definition latin1_lower_char (c : N) : N :=
  if (((65 <=? c) && (c <=? 90)) || ((192 <=? c) && (c <=? 214))
      || ((216 <=? c) && (c <=? 222)))%N
  then (c + 32)%N else c.

Definition latin1_lower (s : str) : str := map latin1_lower_char s.

(** A generator replaying a tape of [genrand_uint32] outputs. *)
Definition tape_next (t : list Z) : Z * list Z :=
  match t with
  | [] => (0, [])
  | w :: t' => (w, t')
  end.

(** ** Sample run used by the witnesses *)

Definition sample_clock : clock :=
  mkClock (1761301800 # 1) (17613018007525 # 10000)
          (mkDatetime 2025 10 24 10 30 0 752500).

(** [genrand_uint32] outputs: two for [random.random()] (giving [0.5]),
    one for [getrandbits(4)] (giving index 4). *)
Definition sample_tape : list Z := [0; 0; 1073741824].

Definition sample_request : ChatRequest := mkChatRequest (u "Teste") None.

(** Destructs a concrete call of [chat] that returns. *)
Ltac run_chat E :=
  match goal with
  | |- exists _ _ _, chat ?gen ?lw ?f ?c ?g ?rq = Some (_, _, _) /\ _ =>
      destruct (chat gen lw f c g rq) as [[[?resp ?evs] ?g']|] eqn:E;
      [|vm_compute in E; discriminate]
  end.

Definition sample_tape' : list Z := [4294967295; 4294967295; 268435456].

Definition long_spaces : str := repeat 32%N 1001.

Definition long_bangs : str := repeat 33%N 1001.

Definition long_a : str := repeat 97%N 1001.

(** A delay numerator as seconds. *)
Definition delay_seconds (d : Z) : Q := Qmake d 9007199254740992.

Definition sample_raw : raw_request := mkRaw (JString (u "Teste")) Absent.

(** [s] is empty or starts with a non-space code point. *)
Definition starts_nonspace (isspace : N -> bool) (s : str) : Prop :=
  match s with
  | [] => True
  | c :: _ => isspace c = false
  end.

(** ** Other validators of the repository ([validation_examples.py]) *)

Section ValidationExamples.

Variable isalnum : N -> bool.
Variable isspace : N -> bool.
Variable lower : str -> str.

(** [str.split()] with no argument: the maximal runs of non-whitespace
    code points; [cur] is the current word, reversed. *)
Fixpoint split_go (s cur : str) : list str :=
  match s with
  | [] => match cur with [] => [] | _ => [rev cur] end
  | c :: s' =>
      if isspace c then
        match cur with
        | [] => split_go s' []
        | _ => rev cur :: split_go s' []
        end
      else split_go s' (c :: cur)
  end.

Definition split_ws (s : str) : list str := split_go s [].

(** [' '.join(words)]. *)
Fixpoint join_sp (ws : list str) : str :=
  match ws with
  | [] => []
  | [w] => w
  | w :: ws' => w ++ 32%N :: join_sp ws'
  end.

(** [MessageValidated.validate_message_content]:
<<
        v = v.strip()
        if not v:
            raise ValueError('Mensagem não pode estar vazia')
        if not any(c.isalnum() for c in v):
            raise ValueError('Mensagem deve conter pelo menos um caractere alfanumérico')
        v = ' '.join(v.split())
        return v
>> *)
Definition validate_message_content (v0 : str) : result str field_error :=
  let v := strip isspace v0 in
  match v with
  | [] => Err (ValueError (u "Mensagem não pode estar vazia"))
  | _ =>
      if negb (existsb isalnum v) then Err (ValueError msg_alnum)
      else Ok (join_sp (split_ws v))
  end.

(** [MessageValidated.message: str = Field(..., min_length=1, max_length=1000)]
    followed by [validate_message_content]. *)
Definition validate_message_validated_field (f : json_field) : result str field_error :=
  match f with
  | Absent => Err Missing
  | JNull | JOther => Err StringType
  | JString s =>
      if Nat.ltb (List.length s) 1 then Err (StringTooShort 1)
      else if Nat.ltb 1000 (List.length s) then Err (StringTooLong 1000)
      else validate_message_content s
  end.

(** [validate_message_manual]: returns [(is_valid, error_message)].
<<
    if not message: return False, "Mensagem não pode estar vazia"
    message = message.strip()
    if len(message) < 1: return False, "Mensagem muito curta"
    if len(message) > 1000: return False, "Mensagem muito longa (máximo 1000 caracteres)"
    if not any(c.isalnum() for c in message): return False, "...alfanumérico"
    forbidden_words = ['spam', 'hack']
    if any(word in message.lower() for word in forbidden_words):
        return False, "Mensagem contém conteúdo proibido"
    return True, ""
>> *)
Definition forbidden_words : list str := [u "spam"; u "hack"].

Definition manual_msg_empty : str := u "Mensagem não pode estar vazia".
Definition manual_msg_short : str := u "Mensagem muito curta".
Definition manual_msg_long : str := u "Mensagem muito longa (máximo 1000 caracteres)".
Definition manual_msg_forbidden : str := u "Mensagem contém conteúdo proibido".

Definition validate_message_manual (message0 : str) : bool * str :=
  match message0 with
  | [] => (false, manual_msg_empty)
  | _ =>
      let message := strip isspace message0 in
      if Nat.ltb (List.length message) 1 then (false, manual_msg_short)
      else if Nat.ltb 1000 (List.length message) then (false, manual_msg_long)
      else if negb (existsb isalnum message) then (false, msg_alnum)
      else if existsb (fun word => contains word (lower message)) forbidden_words
      then (false, manual_msg_forbidden)
      else (true, [])
  end.

(** Result of the example endpoints. *)
Inductive ex_response : Type :=
| ExOk (reply : str)
| Ex400 (detail : str)
| Ex422.

(** [POST /chat/v2] ([chat_with_manual_validation]): the body is the JSON
    string [message]; anything else is refused by FastAPI with 422. *)
Definition chat_with_manual_validation (body : json_field) : ex_response :=
  match body with
  | JString message =>
      let (is_valid, error_msg) := validate_message_manual message in
      if is_valid then ExOk (u "Mensagem validada: " ++ message)
      else Ex400 error_msg
  | _ => Ex422
  end.

(** [ChatRequestLogged.log_and_validate]: logs the raw value and its length,
    strips, rejects an empty result. *)
Inductive ex_log : Type :=
| LogEntrada (v : str) (len : Z).

Definition log_and_validate (v0 : str) : list ex_log * result str field_error :=
  ([LogEntrada v0 (Z.of_nat (List.length v0))],
   match strip isspace v0 with
   | [] => Err (ValueError (u "Mensagem vazia"))
   | v => Ok v
   end).

(** [ChatRequestLogged.message: str = Field(..., min_length=1, max_length=1000)]. *)
Definition validate_logged_field (f : json_field) : list ex_log * result str field_error :=
  match f with
  | Absent => ([], Err Missing)
  | JNull | JOther => ([], Err StringType)
  | JString s =>
      if Nat.ltb (List.length s) 1 then ([], Err (StringTooShort 1))
      else if Nat.ltb 1000 (List.length s) then ([], Err (StringTooLong 1000))
      else log_and_validate s
  end.

End ValidationExamples.

(** [s] has no whitespace at either end, no two whitespace code points in a
    row, and ' ' as its only whitespace; [prev_space] says whether the code
    point before [s] was whitespace. *)
Fixpoint ws_normal (isspace : N -> bool) (prev_space : bool) (s : str) : bool :=
  match s with
  | [] => negb prev_space
  | c :: s' =>
      if isspace c then N.eqb c 32 && negb prev_space && ws_normal isspace true s'
      else ws_normal isspace false s'
  end.

(** * Properties *)

(** ** Generic facts about the embedding *)

Section Facts.

Variable rng : Type.
Variable genrand_uint32 : rng -> Z * rng.
Variable lower : str -> str.

Lemma randbelow_loop_lt : forall fuel n k r g i g',
  randbelow_loop genrand_uint32 fuel n k r g = Some (i, g') -> 0 <= r -> i < n.
Proof.
  induction fuel as [|fuel IH]; intros n k r g i g' H Hr; simpl in H.
  - destruct (r <? n) eqn:E; [|discriminate].
    inversion H; subst; apply Z.ltb_lt; exact E.
  - destruct (r <? n) eqn:E.
    + inversion H; subst; apply Z.ltb_lt; exact E.
    + unfold getrandbits in H.
      destruct (genrand_uint32 g) as [w g1].
      eapply IH; [exact H|].
      apply Z.shiftr_nonneg. unfold uint32. apply Z.mod_pos_bound. lia.
Qed.

Lemma random_choice_in : forall fuel seq g x g',
  random_choice genrand_uint32 fuel seq g = Some (x, g') -> In x seq.
Proof.
  intros fuel seq g x g' H. unfold random_choice in H.
  destruct (randbelow genrand_uint32 fuel _ g) as [[i g1]|]; [|discriminate].
  destruct (nth_error seq (Z.to_nat i)) as [y|] eqn:E; [|discriminate].
  inversion H; subst. eapply nth_error_In; exact E.
Qed.

Lemma select_reply_ladder : forall m ml r,
  select_reply m ml r = spec_reply m (spec_branch m ml) r.
Proof.
  intros m ml r. unfold select_reply, spec_branch, spec_reply.
  destruct (contains (u "olá") ml || contains (u "oi") ml); [reflexivity|].
  destruct (contains (u "como vai") ml); [reflexivity|].
  destruct (contains (u "tchau") ml || contains (u "adeus") ml); [reflexivity|].
  destruct (contains (u "ajuda") ml); [reflexivity|].
  destruct (contains (u "?") m); reflexivity.
Qed.

(** Unfolding a call of [chat] that returns. *)
Lemma chat_inv : forall fuel clk g req resp evs g',
  chat genrand_uint32 lower fuel clk g req = Some (resp, evs, g') ->
  exists r0,
    random_choice genrand_uint32 fuel BOT_RESPONSES (snd (random_random genrand_uint32 g))
      = Some (r0, g') /\
    reply resp = select_reply (message req) (lower (message req)) r0 /\
    timestamp resp = isoformat (utc_now clk) ++ u "Z" /\
    message_length resp = Some (Z.of_nat (List.length (message req))) /\
    processing_time resp = Some (round3 (t_end clk - t_start clk)) /\
    evs = [LogReceived (message req) (user_id req);
           Sleep (delay_of (fst (random_random genrand_uint32 g)));
           LogSent (firstn 50 (reply resp)) (round3 (t_end clk - t_start clk))].
Proof.
  intros fuel clk g req resp evs g' H. unfold chat in H.
  destruct (random_random genrand_uint32 g) as [k g1] eqn:Ek.
  destruct (random_choice genrand_uint32 fuel BOT_RESPONSES g1) as [[r0 g2]|] eqn:Ec;
    [|discriminate].
  injection H as <- <- <-. exists r0. cbn [fst snd].
  repeat split; [exact Ec|..]; reflexivity.
Qed.

End Facts.

Lemma reply_question_nonempty : forall m, reply_question m <> [].
Proof.
  intros m. unfold reply_question.
  destruct (u "Boa pergunta! Sobre ") eqn:E; [vm_compute in E; discriminate|discriminate].
Qed.

Lemma BOT_RESPONSES_nonempty : Forall (fun x => x <> []) BOT_RESPONSES.
Proof. repeat constructor; vm_compute; discriminate. Qed.


(** ** C1: the reply ladder *)

(** C1. For every validated message the reply of [chat] is the one of the
    first-match-wins ladder of the spec: greeting if the lower-cased message
    contains "olá" or "oi", else well-being for "como vai", else farewell
    for "tchau" or "adeus", else help for "ajuda", else the question
    template if the original message contains "?", else a reply of the
    fallback pool [BOT_RESPONSES]. *)
Theorem chat_reply_first_match (rng : Type) (genrand_uint32 : rng -> Z * rng)
  (lower : str -> str) (fuel : nat) (clk : clock) (g : rng) (req : ChatRequest)
  (resp : ChatResponse) (evs : list event) (g' : rng)
  (H : chat genrand_uint32 lower fuel clk g req = Some (resp, evs, g')) :
  exists fallback,
    In fallback BOT_RESPONSES /\
    reply resp = spec_reply (message req)
                   (spec_branch (message req) (lower (message req))) fallback.
Proof.
  destruct (chat_inv _ _ _ _ _ _ _ _ _ _ H) as (r0 & Hc & Hr & _).
  exists r0. split.
  - eapply random_choice_in; exact Hc.
  - rewrite Hr. apply select_reply_ladder.
Qed.

Lemma chat_reply_first_match_witness :
  exists resp evs g',
    chat tape_next latin1_lower 5 sample_clock sample_tape sample_request
      = Some (resp, evs, g') /\
    exists fallback, In fallback BOT_RESPONSES /\
      reply resp = spec_reply (message sample_request)
        (spec_branch (message sample_request) (latin1_lower (message sample_request)))
        fallback.
Proof.
  run_chat E. exists resp, evs, g'. split; [reflexivity|].
  exact (chat_reply_first_match _ _ _ _ _ _ _ _ _ _ E).
Defined.

Lemma chat_reply_cases : forall (rng : Type) (genrand_uint32 : rng -> Z * rng)
  (lower : str -> str) fuel clk g req resp evs g',
  chat genrand_uint32 lower fuel clk g req = Some (resp, evs, g') ->
  List.length BOT_RESPONSES = 8%nat /\
  reply resp <> [] /\
  (In (reply resp) BOT_RESPONSES \/
   In (reply resp) [reply_greeting; reply_wellbeing; reply_farewell; reply_help] \/
   reply resp = reply_question (message req)).
Proof.
  intros rng genrand_uint32 lower fuel clk g req resp evs g' H.
  destruct (chat_inv _ _ _ _ _ _ _ _ _ _ H) as (r0 & Hc & Hr & _).
  pose proof (random_choice_in _ _ _ _ _ _ _ Hc) as Hin.
  split; [reflexivity|].
  rewrite Hr, select_reply_ladder.
  destruct (spec_branch _ _); cbn [spec_reply In].
  - split; [vm_compute; discriminate|]. right; left; left; reflexivity.
  - split; [vm_compute; discriminate|]. right; left; right; left; reflexivity.
  - split; [vm_compute; discriminate|]. right; left; right; right; left; reflexivity.
  - split; [vm_compute; discriminate|]. right; left; right; right; right; left; reflexivity.
  - split; [apply reply_question_nonempty|]. right; right; reflexivity.
  - split; [|left; exact Hin].
    exact (proj1 (Forall_forall _ _) BOT_RESPONSES_nonempty _ Hin).
Qed.

(** ** C10: the replies form a fixed finite set *)

(** C10. Every reply of [chat] is non-empty and is one of the 8 strings of
    [BOT_RESPONSES], one of the 4 fixed contextual replies, or the question
    template instantiated with the validated message. *)
Theorem chat_reply_in_fixed_set (rng : Type) (genrand_uint32 : rng -> Z * rng)
  (lower : str -> str) (fuel : nat) (clk : clock) (g : rng) (req : ChatRequest)
  (resp : ChatResponse) (evs : list event) (g' : rng)
  (H : chat genrand_uint32 lower fuel clk g req = Some (resp, evs, g')) :
  List.length BOT_RESPONSES = 8%nat /\
  reply resp <> [] /\
  (In (reply resp) BOT_RESPONSES \/
   In (reply resp) [reply_greeting; reply_wellbeing; reply_farewell; reply_help] \/
   reply resp = reply_question (message req)).
Proof. exact (chat_reply_cases _ _ _ _ _ _ _ _ _ _ H). Qed.

Lemma chat_reply_in_fixed_set_witness :
  exists resp evs g',
    chat tape_next latin1_lower 5 sample_clock sample_tape sample_request
      = Some (resp, evs, g') /\
    List.length BOT_RESPONSES = 8%nat /\ reply resp <> [] /\
    (In (reply resp) BOT_RESPONSES \/
     In (reply resp) [reply_greeting; reply_wellbeing; reply_farewell; reply_help] \/
     reply resp = reply_question (message sample_request)).
Proof.
  run_chat E. exists resp, evs, g'. split; [reflexivity|].
  exact (chat_reply_in_fixed_set _ _ _ _ _ _ _ _ _ _ E).
Defined.

(** ** C9: only the fallback depends on the random source *)

(** C9. When the validated message matches one of the five rules, two runs
    of [chat] on it give the same reply, whatever the generators, their
    states, the clocks and the fuel; when it matches none, the reply is the
    element of [BOT_RESPONSES] that [random.choice] draws. *)
Theorem chat_rule_reply_deterministic
  (rng1 rng2 : Type) (gen1 : rng1 -> Z * rng1) (gen2 : rng2 -> Z * rng2)
  (lower : str -> str) (fuel1 fuel2 : nat) (clk1 clk2 : clock)
  (g1 : rng1) (g2 : rng2) (req : ChatRequest)
  (resp1 resp2 : ChatResponse) (evs1 evs2 : list event) (g1' : rng1) (g2' : rng2)
  (H1 : chat gen1 lower fuel1 clk1 g1 req = Some (resp1, evs1, g1'))
  (H2 : chat gen2 lower fuel2 clk2 g2 req = Some (resp2, evs2, g2')) :
  (spec_branch (message req) (lower (message req)) <> Fallback ->
   reply resp1 = reply resp2) /\
  (spec_branch (message req) (lower (message req)) = Fallback ->
   random_choice gen1 fuel1 BOT_RESPONSES (snd (random_random gen1 g1))
     = Some (reply resp1, g1')).
Proof.
  destruct (chat_inv _ _ _ _ _ _ _ _ _ _ H1) as (r1 & Hc1 & Hr1 & _).
  destruct (chat_inv _ _ _ _ _ _ _ _ _ _ H2) as (r2 & Hc2 & Hr2 & _).
  rewrite Hr1, Hr2, !select_reply_ladder.
  split.
  - intros Hb. destruct (spec_branch _ _); cbn [spec_reply];
      [reflexivity..|congruence].
  - intros Hb. rewrite Hb. exact Hc1.
Qed.


Lemma chat_rule_reply_deterministic_witness :
  exists resp1 evs1 g1', 
    chat tape_next latin1_lower 5 sample_clock sample_tape sample_request
      = Some (resp1, evs1, g1') /\
  exists resp2 evs2 g2',
    chat tape_next latin1_lower 5 sample_clock sample_tape' sample_request
      = Some (resp2, evs2, g2') /\
  (spec_branch (message sample_request) (latin1_lower (message sample_request))
     <> Fallback -> reply resp1 = reply resp2) /\
  (spec_branch (message sample_request) (latin1_lower (message sample_request))
     = Fallback ->
   random_choice tape_next 5 BOT_RESPONSES (snd (random_random tape_next sample_tape))
     = Some (reply resp1, g1')).
Proof.
  run_chat E1. exists resp, evs, g'. split; [reflexivity|].
  run_chat E2. exists resp0, evs0, g'0. split; [reflexivity|].
  exact (chat_rule_reply_deterministic _ _ _ _ _ _ _ _ _ _ _ _ _ _ _ _ _ _ E1 E2).
Defined.

(** ** C8: [user_id] has no influence on the response *)

(** C8. Two accepted requests with the same message, differing only in
    [user_id], get the same response (reply, length, time stamp, processing
    time), leave the generator in the same state and take the same branch of
    the ladder; only the first log record, which carries [user_id], differs. *)
Theorem chat_user_id_irrelevant (rng : Type) (genrand_uint32 : rng -> Z * rng)
  (lower : str -> str) (fuel : nat) (clk : clock) (g : rng)
  (req1 req2 : ChatRequest) (Hm : message req1 = message req2) :
  spec_branch (message req1) (lower (message req1))
    = spec_branch (message req2) (lower (message req2)) /\
  match chat genrand_uint32 lower fuel clk g req1,
        chat genrand_uint32 lower fuel clk g req2 with
  | Some (r1, e1, g1), Some (r2, e2, g2) => r1 = r2 /\ g1 = g2 /\ tl e1 = tl e2
  | None, None => True
  | _, _ => False
  end.
Proof.
  split; [rewrite Hm; reflexivity|].
  unfold chat. rewrite Hm.
  destruct (random_random genrand_uint32 g) as [k g1].
  destruct (random_choice genrand_uint32 fuel BOT_RESPONSES g1) as [[r0 g2]|];
    [|exact I].
  split; [reflexivity|split; reflexivity].
Qed.

Lemma chat_user_id_irrelevant_witness :
  message sample_request = message (mkChatRequest (u "Teste") (Some (u "user123"))) /\
  spec_branch (message sample_request) (latin1_lower (message sample_request))
    = spec_branch (u "Teste") (latin1_lower (u "Teste")) /\
  match chat tape_next latin1_lower 5 sample_clock sample_tape sample_request,
        chat tape_next latin1_lower 5 sample_clock sample_tape
             (mkChatRequest (u "Teste") (Some (u "user123"))) with
  | Some (r1, e1, g1), Some (r2, e2, g2) => r1 = r2 /\ g1 = g2 /\ tl e1 = tl e2
  | None, None => True
  | _, _ => False
  end.
Proof.
  split; [reflexivity|].
  exact (chat_user_id_irrelevant _ tape_next latin1_lower 5 sample_clock sample_tape
           sample_request (mkChatRequest (u "Teste") (Some (u "user123"))) eq_refl).
Defined.

(** ** Facts about [strip] *)

Section Strip.

Variable isalnum : N -> bool.
Variable isspace : N -> bool.


Lemma lstrip_shape : forall s, starts_nonspace isspace (lstrip isspace s).
Proof.
  induction s as [|c s IH]; simpl; [exact I|].
  destruct (isspace c) eqn:E; [exact IH|exact E].
Qed.

Lemma lstrip_fix : forall s, starts_nonspace isspace s -> lstrip isspace s = s.
Proof.
  intros [|c s] H; simpl in *; [reflexivity|]. rewrite H. reflexivity.
Qed.

Lemma lstrip_idem : forall s, lstrip isspace (lstrip isspace s) = lstrip isspace s.
Proof. intros s. apply lstrip_fix, lstrip_shape. Qed.

Lemma lstrip_length : forall s, (List.length (lstrip isspace s) <= List.length s)%nat.
Proof.
  induction s as [|c s IH]; simpl; [lia|].
  destruct (isspace c); simpl; lia.
Qed.

Lemma lstrip_in : forall s c, In c (lstrip isspace s) -> In c s.
Proof.
  induction s as [|d s IH]; simpl; intros c H; [exact H|].
  destruct (isspace d); [right; apply IH; exact H|exact H].
Qed.

Lemma lstrip_all_space : forall s,
  Forall (fun c => isspace c = true) s -> lstrip isspace s = [].
Proof.
  induction 1 as [|c s Hc _ IH]; simpl; [reflexivity|]. rewrite Hc. exact IH.
Qed.

Lemma lstrip_app_last : forall l a, isspace a = false ->
  exists l', lstrip isspace (l ++ [a]) = l' ++ [a].
Proof.
  induction l as [|c l IH]; intros a Ha; simpl.
  - rewrite Ha. exists []. reflexivity.
  - destruct (isspace c).
    + apply IH; exact Ha.
    + exists (c :: l). reflexivity.
Qed.

Lemma strip_starts_nonspace : forall s, starts_nonspace isspace (strip isspace s).
Proof.
  intros s. unfold strip, rstrip.
  pose proof (lstrip_shape s) as Hs.
  destruct (lstrip isspace s) as [|a m]; simpl; [exact I|].
  destruct (lstrip_app_last (rev m) a Hs) as [l' E]. rewrite E, rev_app_distr.
  exact Hs.
Qed.

Lemma strip_idem : forall s, strip isspace (strip isspace s) = strip isspace s.
Proof.
  intros s.
  assert (Hl : lstrip isspace (strip isspace s) = strip isspace s)
    by (apply lstrip_fix, strip_starts_nonspace).
  unfold strip at 1. rewrite Hl. unfold rstrip at 1.
  unfold strip at 1, rstrip at 1. rewrite rev_involutive, lstrip_idem.
  reflexivity.
Qed.

Lemma strip_length : forall s, (List.length (strip isspace s) <= List.length s)%nat.
Proof.
  intros s. unfold strip, rstrip. rewrite length_rev.
  pose proof (lstrip_length (rev (lstrip isspace s))) as H1.
  rewrite length_rev in H1. pose proof (lstrip_length s). lia.
Qed.

Lemma strip_in : forall s c, In c (strip isspace s) -> In c s.
Proof.
  intros s c H. unfold strip, rstrip in H.
  apply in_rev, lstrip_in, in_rev, lstrip_in in H. exact H.
Qed.

Lemma strip_all_space : forall s,
  Forall (fun c => isspace c = true) s -> strip isspace s = [].
Proof.
  intros s H. unfold strip, rstrip. rewrite (lstrip_all_space s H). reflexivity.
Qed.

End Strip.

(** Unfolding [validate_message_field] on a string of length within
    [1, 1000]. *)
Lemma validate_in_bounds : forall isalnum isspace s,
  (1 <= List.length s <= 1000)%nat ->
  validate_message_field isalnum isspace (JString s) = validate_message isalnum isspace s.
Proof.
  intros isalnum isspace s Hl. unfold validate_message_field.
  unfold message_min_length, message_max_length.
  replace (Nat.ltb (List.length s) 1) with false by (symmetry; apply Nat.ltb_ge; lia).
  replace (Nat.ltb 1000 (List.length s)) with false by (symmetry; apply Nat.ltb_ge; lia).
  reflexivity.
Qed.

Lemma validate_field_too_long : forall isalnum isspace s,
  (1000 < List.length s)%nat ->
  validate_message_field isalnum isspace (JString s) = Err TooLong.
Proof.
  intros isalnum isspace s Hlong.
  unfold validate_message_field, message_min_length, message_max_length.
  replace (Nat.ltb (List.length s) 1) with false by (symmetry; apply Nat.ltb_ge; lia).
  replace (Nat.ltb 1000 (List.length s)) with true by (symmetry; apply Nat.ltb_lt; lia).
  reflexivity.
Qed.

(** An accepted message is the trimmed input. *)
Lemma validate_field_ok : forall isalnum isspace s v,
  validate_message_field isalnum isspace (JString s) = Ok v ->
  v = strip isspace s /\ v <> [] /\ existsb isalnum v = true /\
  (List.length s <= 1000)%nat.
Proof.
  intros isalnum isspace s v Hok.
  unfold validate_message_field, message_min_length, message_max_length in Hok.
  destruct (Nat.ltb (List.length s) 1) eqn:E1; [discriminate|].
  destruct (Nat.ltb 1000 (List.length s)) eqn:E2; [discriminate|].
  apply Nat.ltb_ge in E2.
  unfold validate_message in Hok.
  destruct (strip isspace s) as [|c t] eqn:Es; [discriminate|].
  destruct (existsb isalnum (c :: t)) eqn:Ea; [|discriminate].
  injection Hok as <-.
  split; [reflexivity|split; [discriminate|split; [exact Ea|exact E2]]].
Qed.


(** ** C2: the length bound on the raw input *)

(** C2. Every string of raw (untrimmed) length above 1000 is rejected with
    [TooLong] ([string_too_long] of [max_length=1000]), whatever its
    content and whatever the Unicode tables. *)
Theorem validate_too_long (isalnum isspace : N -> bool) (s : str)
  (Hlong : (1000 < List.length s)%nat) :
  validate_message_field isalnum isspace (JString s) = Err TooLong.
Proof. apply validate_field_too_long; exact Hlong. Qed.

Lemma validate_too_long_witness :
  (1000 < List.length long_a)%nat /\
  validate_message_field latin1_isalnum latin1_isspace (JString long_a) = Err TooLong.
Proof.
  split; [vm_compute; reflexivity|].
  apply validate_too_long. vm_compute. reflexivity.
Defined.

(** ** C3: empty and whitespace-only messages *)

(** C3 (counterexample). The empty string is not rejected with
    [EmptyMessage] but with [string_too_short] ([min_length=1]), and a
    whitespace-only string of 1001 spaces with [TooLong]. *)
Lemma validate_blank_counterexample :
  validate_message_field latin1_isalnum latin1_isspace (JString []) = Err (StringTooShort 1) /\
  validate_message_field latin1_isalnum latin1_isspace (JString long_spaces) = Err TooLong /\
  ~ (forall s, Forall (fun c => latin1_isspace c = true) s ->
       validate_message_field latin1_isalnum latin1_isspace (JString s) = Err EmptyMessage).
Proof.
  split; [reflexivity|]. split; [vm_compute; reflexivity|].
  intros H. specialize (H [] (Forall_nil _)). vm_compute in H. discriminate.
Qed.

(** C3 (amended). A whitespace-only string of raw length 1 to 1000 is
    rejected with [EmptyMessage]; the empty string with [StringTooShort 1];
    a whitespace-only string longer than 1000 with [TooLong]; an absent
    field with [MissingField]. *)
Theorem validate_blank (isalnum isspace : N -> bool) (s : str)
  (Hsp : Forall (fun c => isspace c = true) s) :
  ((1 <= List.length s <= 1000)%nat ->
   validate_message_field isalnum isspace (JString s) = Err EmptyMessage) /\
  (s = [] -> validate_message_field isalnum isspace (JString s) = Err (StringTooShort 1)) /\
  ((1000 < List.length s)%nat ->
   validate_message_field isalnum isspace (JString s) = Err TooLong) /\
  validate_message_field isalnum isspace Absent = Err MissingField.
Proof.
  split; [|split; [|split]].
  - intros Hl. rewrite validate_in_bounds by exact Hl.
    unfold validate_message. rewrite (strip_all_space isspace s Hsp). reflexivity.
  - intros ->. reflexivity.
  - apply validate_field_too_long.
  - reflexivity.
Qed.

Lemma validate_blank_witness :
  Forall (fun c => latin1_isspace c = true) (u "   ") /\
  ((1 <= List.length (u "   ") <= 1000)%nat ->
   validate_message_field latin1_isalnum latin1_isspace (JString (u "   ")) = Err EmptyMessage) /\
  (u "   " = [] ->
   validate_message_field latin1_isalnum latin1_isspace (JString (u "   "))
     = Err (StringTooShort 1)) /\
  ((1000 < List.length (u "   "))%nat ->
   validate_message_field latin1_isalnum latin1_isspace (JString (u "   ")) = Err TooLong) /\
  validate_message_field latin1_isalnum latin1_isspace Absent = Err MissingField.
Proof.
  assert (H : Forall (fun c => latin1_isspace c = true) (u "   "))
    by (repeat constructor).
  split; [exact H|].
  exact (validate_blank latin1_isalnum latin1_isspace (u "   ") H).
Defined.

(** ** C4: messages without alphanumeric content *)

(** C4 (counterexample). 1001 exclamation marks are not empty after
    trimming and contain no alphanumeric character, but are rejected with
    [TooLong], not [NoAlphanumericContent]. *)
Lemma validate_no_alnum_counterexample :
  strip latin1_isspace long_bangs <> [] /\
  existsb latin1_isalnum long_bangs = false /\
  validate_message_field latin1_isalnum latin1_isspace (JString long_bangs) = Err TooLong /\
  TooLong <> NoAlphanumericContent.
Proof.
  split; [vm_compute; discriminate|].
  split; [vm_compute; reflexivity|].
  split; [vm_compute; reflexivity|discriminate].
Qed.

(** C4 (amended). A string that is not empty after trimming and contains
    no alphanumeric character is rejected with [NoAlphanumericContent] when
    its raw length is at most 1000, and with [TooLong] otherwise. *)
Theorem validate_no_alnum (isalnum isspace : N -> bool) (s : str)
  (Hne : strip isspace s <> [])
  (Hna : existsb isalnum s = false) :
  ((List.length s <= 1000)%nat ->
   validate_message_field isalnum isspace (JString s) = Err NoAlphanumericContent) /\
  ((1000 < List.length s)%nat ->
   validate_message_field isalnum isspace (JString s) = Err TooLong).
Proof.
  split; [|apply validate_field_too_long].
  intros Hl.
  assert (H1 : (1 <= List.length s)%nat).
  { destruct s; [contradiction Hne; reflexivity|simpl; lia]. }
  rewrite validate_in_bounds by lia.
  assert (Hna' : existsb isalnum (strip isspace s) = false).
  { destruct (existsb isalnum (strip isspace s)) eqn:E; [|reflexivity].
    apply existsb_exists in E. destruct E as (c & Hc & Ha).
    rewrite <- Hna. symmetry. apply existsb_exists. exists c. split; [|exact Ha].
    eapply strip_in; exact Hc. }
  unfold validate_message.
  destruct (strip isspace s) as [|c t]; [contradiction Hne; reflexivity|].
  rewrite Hna'. reflexivity.
Qed.

Lemma validate_no_alnum_witness :
  strip latin1_isspace (u " !!!? ") <> [] /\
  existsb latin1_isalnum (u " !!!? ") = false /\
  ((List.length (u " !!!? ") <= 1000)%nat ->
   validate_message_field latin1_isalnum latin1_isspace (JString (u " !!!? "))
     = Err NoAlphanumericContent) /\
  ((1000 < List.length (u " !!!? "))%nat ->
   validate_message_field latin1_isalnum latin1_isspace (JString (u " !!!? ")) = Err TooLong).
Proof.
  assert (H1 : strip latin1_isspace (u " !!!? ") <> []) by (vm_compute; discriminate).
  assert (H2 : existsb latin1_isalnum (u " !!!? ") = false) by (vm_compute; reflexivity).
  split; [exact H1|]. split; [exact H2|].
  exact (validate_no_alnum latin1_isalnum latin1_isspace _ H1 H2).
Defined.

(** ** C5: the accepted message is the trimmed input, a fixed point *)

(** C5. An accepted message is the input with leading and trailing
    whitespace removed, and validating it again accepts it unchanged. *)
Theorem validate_accepts_stripped_idem (isalnum isspace : N -> bool) (s v : str)
  (Hok : validate_message_field isalnum isspace (JString s) = Ok v) :
  v = strip isspace s /\ validate_message_field isalnum isspace (JString v) = Ok v.
Proof.
  destruct (validate_field_ok _ _ _ _ Hok) as (-> & Hne & Ha & Hl).
  split; [reflexivity|].
  pose proof (strip_length isspace s) as Hls.
  rewrite validate_in_bounds
    by (destruct (strip isspace s); [contradiction Hne; reflexivity|simpl in *; lia]).
  unfold validate_message. rewrite strip_idem.
  destruct (strip isspace s) as [|c t]; [contradiction Hne; reflexivity|].
  rewrite Ha. reflexivity.
Qed.

Lemma validate_accepts_stripped_idem_witness :
  validate_message_field latin1_isalnum latin1_isspace (JString (u "  Olá  ")) = Ok (u "Olá") /\
  u "Olá" = strip latin1_isspace (u "  Olá  ") /\
  validate_message_field latin1_isalnum latin1_isspace (JString (u "Olá")) = Ok (u "Olá").
Proof.
  assert (H : validate_message_field latin1_isalnum latin1_isspace (JString (u "  Olá  "))
              = Ok (u "Olá")) by (vm_compute; reflexivity).
  split; [exact H|].
  exact (validate_accepts_stripped_idem latin1_isalnum latin1_isspace _ _ H).
Defined.

(** ** The synthetic delay *)

Lemma random_random_range : forall (rng : Type) (gen : rng -> Z * rng) g,
  0 <= fst (random_random gen g) < 2 ^ 53.
Proof.
  intros rng gen g. unfold random_random.
  destruct (gen g) as [w1 g1]. destruct (gen g1) as [w2 g2]. cbn [fst].
  unfold uint32. rewrite !Z.shiftr_div_pow2 by lia.
  pose proof (Z.mod_pos_bound w1 (2 ^ 32) ltac:(lia)) as H1.
  pose proof (Z.mod_pos_bound w2 (2 ^ 32) ltac:(lia)) as H2.
  set (x1 := w1 mod 2 ^ 32) in *. set (x2 := w2 mod 2 ^ 32) in *.
  assert (A1 : 0 <= x1 / 2 ^ 5 < 2 ^ 27).
  { split; [apply Z.div_pos; lia|]. apply Z.div_lt_upper_bound; lia. }
  assert (A2 : 0 <= x2 / 2 ^ 6 < 2 ^ 26).
  { split; [apply Z.div_pos; lia|]. apply Z.div_lt_upper_bound; lia. }
  lia.
Qed.

(** [0.5 + random.random()] in double precision lies in [[0.5, 1.5]] and
    is [1.5] exactly for the largest value [1 - 2^-53] of [random.random()]. *)
Lemma delay_of_range : forall k, 0 <= k < 2 ^ 53 ->
  2 ^ 52 <= delay_of k <= 3 * 2 ^ 52 /\ (delay_of k = 3 * 2 ^ 52 <-> k = 2 ^ 53 - 1).
Proof.
  intros k Hk. unfold delay_of, round_ne_53.
  assert (P52 : 2 ^ 52 = 4503599627370496) by reflexivity.
  assert (P53 : 2 ^ 53 = 9007199254740992) by reflexivity.
  assert (P54 : 2 ^ (53 + 1) = 18014398509481984) by reflexivity.
  destruct (Z.lt_ge_cases (2 ^ 52 + k) (2 ^ 53)) as [Hs|Hs].
  - rewrite (Z.log2_unique (2 ^ 52 + k) 52) by lia.
    replace (52 + 1 <=? 53) with true by reflexivity. lia.
  - rewrite (Z.log2_unique (2 ^ 52 + k) 53) by lia.
    replace (53 + 1 <=? 53) with false by reflexivity.
    replace (Z.shiftl 1 (53 + 1 - 53 - 1)) with 1 by reflexivity.
    replace (53 + 1 - 53) with 1 by reflexivity.
    rewrite Z.shiftr_div_pow2, !Z.shiftl_mul_pow2 by lia.
    change (2 ^ 1) with 2.
    set (m := 2 ^ 52 + k) in *.
    pose proof (Z.div_mod m 2 ltac:(lia)) as Hdm.
    pose proof (Z.mod_pos_bound m 2 ltac:(lia)) as Hr.
    set (q := m / 2) in *.
    destruct (m - q * 2 <? 1) eqn:E1; [apply Z.ltb_lt in E1; lia|].
    apply Z.ltb_ge in E1.
    destruct (1 <? m - q * 2) eqn:E2; [apply Z.ltb_lt in E2; lia|].
    apply Z.ltb_ge in E2.
    destruct (Z.even q) eqn:Ee.
    + apply Z.even_spec in Ee. destruct Ee as [j Hj]. lia.
    + assert (Ho : Z.odd q = true) by (rewrite <- Z.negb_even, Ee; reflexivity).
      apply Z.odd_spec in Ho. destruct Ho as [j Hj]. lia.
Qed.

(** [round(x, 3)] of a duration of at least half a second is positive. *)
Lemma round3_pos : forall x, (1 # 2 <= x)%Q -> 0 < round3 x.
Proof.
  intros [n d] Hx. unfold Qle in Hx. cbn [Qnum Qden] in Hx.
  unfold round3, round_half_even. cbn [Qmult Qnum Qden].
  rewrite Pos.mul_1_r.
  assert (Hq : 500 <= n * 1000 / Zpos d).
  { apply Z.div_le_lower_bound; lia. }
  destruct (2 * _ <? _); [lia|].
  destruct (_ <? 2 * _); [lia|].
  destruct (Z.even _); lia.
Qed.

(** ** C7: the synthetic delay *)

(** C7 (counterexample). With the generator words [0xFFFFFFFF,
    0xFFFFFFFF], [random.random()] returns [1 - 2^-53] and the delay passed
    to [asyncio.sleep] is exactly [1.5] seconds, outside [[0.5, 1.5)]. *)
Lemma chat_delay_counterexample :
  fst (random_random tape_next sample_tape') = 2 ^ 53 - 1 /\
  match chat tape_next latin1_lower 5 sample_clock sample_tape' sample_request with
  | Some (_, evs, _) =>
      In (Sleep (3 * 2 ^ 52)) evs /\ delay_seconds (3 * 2 ^ 52) == 3 # 2 /\
      ~ (delay_seconds (3 * 2 ^ 52) < 3 # 2)%Q
  | None => False
  end.
Proof.
  split; [reflexivity|].
  vm_compute. split; [right; left; reflexivity|].
  split; [reflexivity|discriminate].
Qed.

(** C7 (amended). The delay is [0.5 + random.random()] rounded to double
    precision: it lies in the closed interval [[0.5, 1.5]], and it is
    [1.5] exactly when [random.random()] returns [1 - 2^-53]. *)
Theorem chat_delay_range (rng : Type) (genrand_uint32 : rng -> Z * rng)
  (lower : str -> str) (fuel : nat) (clk : clock) (g : rng) (req : ChatRequest)
  (resp : ChatResponse) (evs : list event) (g' : rng) (d : Z)
  (H : chat genrand_uint32 lower fuel clk g req = Some (resp, evs, g'))
  (Hd : In (Sleep d) evs) :
  (1 # 2 <= delay_seconds d <= 3 # 2)%Q /\
  (delay_seconds d == 3 # 2 <->
   fst (random_random genrand_uint32 g) = 2 ^ 53 - 1).
Proof.
  destruct (chat_inv _ _ _ _ _ _ _ _ _ _ H) as (r0 & _ & _ & _ & _ & _ & Hevs).
  rewrite Hevs in Hd. cbn [In] in Hd.
  assert (Hd' : d = delay_of (fst (random_random genrand_uint32 g))).
  { destruct Hd as [Hd|[Hd|[Hd|[]]]]; try discriminate. injection Hd as ->. reflexivity. }
  destruct (delay_of_range _ (random_random_range _ genrand_uint32 g)) as [Hb Hi].
  rewrite <- Hd' in Hb, Hi.
  unfold delay_seconds, Qle, Qeq. cbn [Qnum Qden].
  split; [lia|]. rewrite <- Hi. lia.
Qed.

Lemma chat_delay_range_witness :
  exists resp evs g',
    chat tape_next latin1_lower 5 sample_clock sample_tape' sample_request
      = Some (resp, evs, g') /\
    In (Sleep (3 * 2 ^ 52)) evs /\
    (1 # 2 <= delay_seconds (3 * 2 ^ 52) <= 3 # 2)%Q /\
    (delay_seconds (3 * 2 ^ 52) == 3 # 2 <->
     fst (random_random tape_next sample_tape') = 2 ^ 53 - 1).
Proof.
  run_chat E. exists resp, evs, g'. split; [reflexivity|].
  assert (Hin : In (Sleep (3 * 2 ^ 52)) evs).
  { injection E as _ <- _. right; left; reflexivity. }
  split; [exact Hin|].
  exact (chat_delay_range _ _ _ _ _ _ _ _ _ _ _ E Hin).
Defined.

(** ** C6: the metadata of an accepted request *)

(** C6. For an accepted request whose raw [message] is [s], the response
    has [message_length] the number of code points of the trimmed message,
    [processing_time] equal to [round(t_end - t_start, 3)] (kept in
    thousandths) and positive, a non-empty reply and a time stamp ending in
    "Z".  Positivity assumes the clock contract of [asyncio.sleep]: the
    wall clock read by [time.time()] advances by at least the slept delay. *)
Theorem post_chat_response_metadata (rng : Type) (genrand_uint32 : rng -> Z * rng)
  (lower : str -> str) (isalnum isspace : N -> bool) (fuel : nat) (clk : clock)
  (g : rng) (r : raw_request) (s : str)
  (resp : ChatResponse) (evs : list event) (g' : rng)
  (Hraw : raw_message r = JString s)
  (H : post_chat genrand_uint32 lower isalnum isspace fuel clk g r
         = Some (HTTP200 resp, evs, g'))
  (Hclock : forall d, In (Sleep d) evs -> (delay_seconds d <= t_end clk - t_start clk)%Q) :
  message_length resp = Some (Z.of_nat (List.length (strip isspace s))) /\
  processing_time resp = Some (round3 (t_end clk - t_start clk)) /\
  0 < round3 (t_end clk - t_start clk) /\
  reply resp <> [] /\
  exists p, timestamp resp = p ++ u "Z".
Proof.
  unfold post_chat in H.
  destruct (parse_request isalnum isspace r) as [req|errs] eqn:Ep; [|discriminate].
  destruct (chat genrand_uint32 lower fuel clk g req) as [[[resp0 evs0] g0]|] eqn:Ec;
    [|discriminate].
  injection H as <- <- <-.
  assert (Hm : message req = strip isspace s).
  { unfold parse_request in Ep. rewrite Hraw in Ep.
    destruct (validate_message_field isalnum isspace (JString s)) as [m|] eqn:Ev;
      destruct (validate_user_id (raw_user_id r)); try discriminate.
    injection Ep as <-. apply (validate_field_ok _ _ _ _ Ev). }
  destruct (chat_inv _ _ _ _ _ _ _ _ _ _ Ec)
    as (r0 & _ & _ & Hts & Hlen & Hpt & Hevs).
  pose proof (chat_reply_cases _ _ _ _ _ _ _ _ _ _ Ec) as (_ & Hne & _).
  assert (Hsleep : In (Sleep (delay_of (fst (random_random genrand_uint32 g)))) evs0)
    by (rewrite Hevs; right; left; reflexivity).
  pose proof (Hclock _ Hsleep) as Hc.
  destruct (delay_of_range _ (random_random_range _ genrand_uint32 g)) as [Hb _].
  assert (Hhalf : (1 # 2 <= t_end clk - t_start clk)%Q).
  { eapply Qle_trans; [|exact Hc].
    unfold delay_seconds, Qle. cbn [Qnum Qden]. lia. }
  split; [rewrite Hlen, Hm; reflexivity|].
  split; [exact Hpt|].
  split; [apply round3_pos; exact Hhalf|].
  split; [exact Hne|].
  exists (isoformat (utc_now clk)). exact Hts.
Qed.


Lemma post_chat_response_metadata_witness :
  exists resp evs g',
    post_chat tape_next latin1_lower latin1_isalnum latin1_isspace 5 sample_clock
      sample_tape sample_raw = Some (HTTP200 resp, evs, g') /\
    (forall d, In (Sleep d) evs ->
       (delay_seconds d <= t_end sample_clock - t_start sample_clock)%Q) /\
    message_length resp = Some 5 /\
    message_length resp = Some (Z.of_nat (List.length (strip latin1_isspace (u "Teste")))) /\
    processing_time resp = Some (round3 (t_end sample_clock - t_start sample_clock)) /\
    0 < round3 (t_end sample_clock - t_start sample_clock) /\
    reply resp <> [] /\
    exists p, timestamp resp = p ++ u "Z".
Proof.
  destruct (post_chat tape_next latin1_lower latin1_isalnum latin1_isspace 5 sample_clock
              sample_tape sample_raw) as [[[o evs] g']|] eqn:E;
    [|vm_compute in E; discriminate].
  destruct o as [resp|errs]; [|vm_compute in E; discriminate].
  exists resp, evs, g'. split; [reflexivity|].
  assert (Hclock : forall d, In (Sleep d) evs ->
            (delay_seconds d <= t_end sample_clock - t_start sample_clock)%Q).
  { vm_compute in E. injection E as _ <- _.
    intros d Hd. cbn [In] in Hd.
    destruct Hd as [Hd|[Hd|[Hd|[]]]]; try discriminate.
    injection Hd as <-. vm_compute. discriminate. }
  split; [exact Hclock|].
  split; [vm_compute in E; injection E as <- _ _; reflexivity|].
  exact (post_chat_response_metadata _ _ _ _ _ _ _ _ sample_raw (u "Teste") _ _ _
           eq_refl E Hclock).
Defined.

(** * Properties of the other validators and of [chat] *)

(** ** [str.split()] and [' '.join] *)

Section Words.

Variable isspace : N -> bool.

Definition nospace (w : str) : Prop := Forall (fun c => isspace c = false) w.

Definition wf_words (ws : list str) : Prop :=
  Forall (fun w => w <> [] /\ nospace w) ws.

Lemma split_go_wf : forall s cur, nospace cur -> wf_words (split_go isspace s cur).
Proof.
  induction s as [|c s IH]; intros cur Hc; simpl.
  - destruct cur as [|d cur']; [constructor|].
    constructor; [|constructor]. split.
    + intros E. apply (f_equal (@List.length N)) in E. rewrite length_rev in E.
      discriminate.
    + apply Forall_rev. exact Hc.
  - destruct (isspace c) eqn:Ec.
    + destruct cur as [|d cur']; [apply IH; constructor|].
      constructor; [|apply IH; constructor]. split.
      * intros E. apply (f_equal (@List.length N)) in E. rewrite length_rev in E.
        discriminate.
      * apply Forall_rev. exact Hc.
    + apply IH. constructor; assumption.
Qed.

Lemma split_go_app : forall w rest cur, nospace w ->
  split_go isspace (w ++ rest) cur = split_go isspace rest (rev w ++ cur).
Proof.
  induction w as [|c w IH]; intros rest cur Hw; simpl; [reflexivity|].
  inversion Hw as [|? ? Hc Hw']; subst. rewrite Hc, IH by exact Hw'.
  rewrite <- app_assoc. reflexivity.
Qed.

Lemma split_go_lstrip : forall s,
  split_go isspace (lstrip isspace s) [] = split_go isspace s [].
Proof.
  induction s as [|c s IH]; simpl; [reflexivity|].
  destruct (isspace c) eqn:Ec; [exact IH|]. simpl. rewrite Ec. reflexivity.
Qed.

Lemma rev_nonempty : forall (w : str), w <> [] -> rev w <> [].
Proof.
  intros w Hw E. apply Hw. rewrite <- (rev_involutive w), E. reflexivity.
Qed.

Lemma split_join : isspace 32 = true -> forall ws, wf_words ws ->
  split_ws isspace (join_sp ws) = ws.
Proof.
  intros H32. induction ws as [|w ws IH]; intros Hws; [reflexivity|].
  inversion Hws as [|? ? [Hne Hw] Hws']; subst.
  unfold split_ws. destruct ws as [|w2 ws''].
  - cbn [join_sp]. rewrite <- (app_nil_r w), split_go_app by exact Hw.
    rewrite app_nil_r. simpl.
    destruct (rev w) as [|a l] eqn:Er; [exfalso; exact (rev_nonempty w Hne Er)|].
    rewrite <- Er, rev_involutive, ?app_nil_r. reflexivity.
  - change (join_sp (w :: w2 :: ws'')) with (w ++ 32%N :: join_sp (w2 :: ws'')).
    rewrite split_go_app by exact Hw. rewrite app_nil_r. simpl. rewrite H32.
    destruct (rev w) as [|a l] eqn:Er; [exfalso; exact (rev_nonempty w Hne Er)|].
    rewrite <- Er, rev_involutive. f_equal. apply IH. exact Hws'.
Qed.

Lemma ws_normal_app : forall w r b, nospace w -> w <> [] ->
  ws_normal isspace b (w ++ r) = ws_normal isspace false r.
Proof.
  induction w as [|c w IH]; intros r b Hw Hne; [contradiction Hne; reflexivity|].
  inversion Hw as [|? ? Hc Hw']; subst. simpl. rewrite Hc.
  destruct w as [|d w']; [reflexivity|]. apply IH; [exact Hw'|discriminate].
Qed.

Lemma ws_normal_join : isspace 32 = true -> forall ws, wf_words ws -> ws <> [] ->
  ws_normal isspace true (join_sp ws) = true.
Proof.
  intros H32. induction ws as [|w ws IH]; intros Hws Hne; [contradiction Hne; reflexivity|].
  inversion Hws as [|? ? [Hwne Hw] Hws']; subst.
  destruct ws as [|w2 ws''].
  - cbn [join_sp]. rewrite <- (app_nil_r w), ws_normal_app by assumption. reflexivity.
  - change (join_sp (w :: w2 :: ws'')) with (w ++ 32%N :: join_sp (w2 :: ws'')).
    rewrite ws_normal_app by assumption. simpl. rewrite H32.
    apply IH; [exact Hws'|discriminate].
Qed.

Lemma ws_normal_head : forall r, ws_normal isspace true r = true -> starts_nonspace isspace r.
Proof.
  intros [|c r] H; simpl in *; [discriminate|].
  destruct (isspace c); [|reflexivity].
  rewrite andb_false_r in H. discriminate.
Qed.

Lemma ws_normal_last : forall r b, ws_normal isspace b r = true -> r <> [] ->
  exists x c, r = x ++ [c] /\ isspace c = false.
Proof.
  induction r as [|c r IH]; intros b H Hne; [contradiction Hne; reflexivity|].
  assert (Ht : exists b', ws_normal isspace b' r = true).
  { simpl in H. destruct (isspace c).
    - apply andb_true_iff in H. destruct H as [_ H]. eexists; exact H.
    - eexists; exact H. }
  destruct r as [|d r'].
  - simpl in H. exists [], c. split; [reflexivity|].
    destruct (isspace c); [|reflexivity]. rewrite andb_false_r in H. discriminate.
  - destruct Ht as [b' H'].
    destruct (IH b' H' ltac:(discriminate)) as (x & e & Ex & Ee).
    exists (c :: x), e. rewrite Ex. split; [reflexivity|exact Ee].
Qed.

Lemma ws_normal_strip : forall r, ws_normal isspace true r = true ->
  strip isspace r = r.
Proof.
  intros r H. unfold strip, rstrip.
  rewrite (lstrip_fix isspace r (ws_normal_head r H)).
  destruct r as [|c0 r0] eqn:Er; [reflexivity|].
  rewrite <- Er in *.
  destruct (ws_normal_last r true H ltac:(subst; discriminate)) as (x & c & Ex & Ec).
  rewrite Ex, rev_app_distr. simpl. rewrite Ec.
  change (c :: rev x) with ([c] ++ rev x). rewrite rev_app_distr, rev_involutive.
  reflexivity.
Qed.

Lemma join_cons_length : forall w ws,
  (List.length (join_sp (w :: ws)) <= List.length w + 1 + List.length (join_sp ws))%nat.
Proof.
  intros w [|w2 ws]; simpl; [lia|]. rewrite length_app. simpl. lia.
Qed.

Lemma split_go_length : forall s cur,
  (List.length (join_sp (split_go isspace s cur)) <= List.length s + List.length cur)%nat.
Proof.
  induction s as [|c s IH]; intros cur; simpl.
  - destruct cur; simpl; [lia|]. rewrite length_app. simpl. rewrite length_rev. lia.
  - destruct (isspace c).
    + destruct cur as [|d cur']; [specialize (IH []); simpl in *; lia|].
      pose proof (join_cons_length (rev (d :: cur')) (split_go isspace s [])) as Hj.
      specialize (IH []). rewrite length_rev in Hj. simpl in *. lia.
    + specialize (IH (c :: cur)). simpl in *. lia.
Qed.

Lemma join_in : forall c w ws, In c w -> In w ws -> In c (join_sp ws).
Proof.
  intros c w. induction ws as [|x ws IH]; intros Hc Hw; [destruct Hw|].
  destruct ws as [|y ws'].
  - destruct Hw as [<-|[]]. exact Hc.
  - change (join_sp (x :: y :: ws')) with (x ++ 32%N :: join_sp (y :: ws')).
    apply in_or_app. destruct Hw as [<-|Hw]; [left; exact Hc|].
    right; right. apply IH; assumption.
Qed.

Lemma split_go_in : forall c s cur, isspace c = false -> (In c s \/ In c cur) ->
  exists w, In w (split_go isspace s cur) /\ In c w.
Proof.
  intros c. induction s as [|d s IH]; intros cur Hc Hin; simpl.
  - destruct Hin as [[]|Hin].
    destruct cur as [|e cur']; [destruct Hin|].
    exists (rev (e :: cur')). split; [left; reflexivity|]. apply in_rev.
    rewrite rev_involutive. exact Hin.
  - destruct (isspace d) eqn:Ed.
    + assert (Hin' : In c s \/ In c cur).
      { destruct Hin as [[<-|Hs]|Hcur]; [congruence|left; exact Hs|right; exact Hcur]. }
      destruct cur as [|e cur'].
      * destruct Hin' as [Hs|[]]. apply IH; [exact Hc|left; exact Hs].
      * destruct Hin' as [Hs|Hcur].
        -- destruct (IH [] Hc (or_introl Hs)) as (w & Hw & Hcw).
           exists w. split; [right; exact Hw|exact Hcw].
        -- exists (rev (e :: cur')). split; [left; reflexivity|].
           apply in_rev. rewrite rev_involutive. exact Hcur.
    + apply IH; [exact Hc|].
      destruct Hin as [[<-|Hs]|Hcur]; [right; left; reflexivity|left; exact Hs|].
      right; right; exact Hcur.
Qed.

End Words.

Lemma latin1_alnum_not_space : forall c, latin1_isalnum c = true -> latin1_isspace c = false.
Proof.
  intros c H. unfold latin1_isalnum in H. unfold latin1_isspace.
  apply not_true_is_false. intros H2. cbn [existsb] in H. rewrite orb_false_r in H.
  repeat rewrite orb_true_iff in H. repeat rewrite andb_true_iff in H.
  repeat rewrite N.leb_le in H. repeat rewrite N.eqb_eq in H.
  repeat rewrite orb_true_iff in H2. repeat rewrite andb_true_iff in H2.
  repeat rewrite N.leb_le in H2. repeat rewrite N.eqb_eq in H2.
  lia.
Qed.

Section MessageValidatedProps.

Variable isalnum : N -> bool.
Variable isspace : N -> bool.
Hypothesis space_32 : isspace 32 = true.
Hypothesis alnum_not_space : forall c, isalnum c = true -> isspace c = false.

Lemma content_ok_inv : forall v0 r,
  validate_message_content isalnum isspace v0 = Ok r ->
  r = join_sp (split_ws isspace (strip isspace v0)) /\
  strip isspace v0 <> [] /\ existsb isalnum (strip isspace v0) = true.
Proof.
  intros v0 r H. unfold validate_message_content in H.
  destruct (strip isspace v0) as [|c t] eqn:Es; [discriminate|].
  destruct (existsb isalnum (c :: t)) eqn:Ea; [|discriminate].
  injection H as <-. split; [reflexivity|split; [discriminate|reflexivity]].
Qed.

Lemma content_output : forall v0 r,
  validate_message_content isalnum isspace v0 = Ok r ->
  ws_normal isspace true r = true /\ existsb isalnum r = true /\ r <> [] /\
  (List.length r <= List.length v0)%nat /\
  split_ws isspace r = split_ws isspace (strip isspace v0).
Proof.
  intros v0 r H. destruct (content_ok_inv v0 r H) as (-> & Hne & Ha).
  set (ws := split_ws isspace (strip isspace v0)).
  assert (Hwf : wf_words isspace ws) by (apply split_go_wf; constructor).
  apply existsb_exists in Ha. destruct Ha as (c & Hc & Hac).
  destruct (split_go_in isspace c (strip isspace v0) [] (alnum_not_space c Hac)
              (or_introl Hc)) as (w & Hw & Hcw).
  assert (Hcr : In c (join_sp ws)) by (eapply join_in; eassumption).
  assert (Hrne : join_sp ws <> []) by (intros E; rewrite E in Hcr; destruct Hcr).
  assert (Hwsne : ws <> []) by (intros E; apply Hrne; rewrite E; reflexivity).
  split; [apply ws_normal_join; assumption|].
  split; [apply existsb_exists; exists c; split; assumption|].
  split; [exact Hrne|].
  split.
  - pose proof (split_go_length isspace (strip isspace v0) []) as Hl.
    pose proof (strip_length isspace v0). unfold ws, split_ws.
    simpl in Hl. lia.
  - apply split_join; assumption.
Qed.

Lemma validated_field_ok : forall s r,
  validate_message_validated_field isalnum isspace (JString s) = Ok r ->
  validate_message_content isalnum isspace s = Ok r /\ (1 <= List.length s <= 1000)%nat.
Proof.
  intros s r H. unfold validate_message_validated_field in H.
  destruct (Nat.ltb (List.length s) 1) eqn:E1; [discriminate|].
  destruct (Nat.ltb 1000 (List.length s)) eqn:E2; [discriminate|].
  apply Nat.ltb_ge in E1, E2. split; [exact H|lia].
Qed.

End MessageValidatedProps.

(** ** [MessageValidated] *)

(** X1. [' '.join(words)] followed by [str.split()] gives the words back,
    for words that are non-empty and contain no whitespace. *)
Theorem split_ws_join_sp_roundtrip (isspace : N -> bool) (ws : list str)
  (H32 : isspace 32%N = true) (Hws : wf_words isspace ws) :
  split_ws isspace (join_sp ws) = ws.
Proof. apply split_join; assumption. Qed.

Lemma split_ws_join_sp_roundtrip_witness :
  latin1_isspace 32%N = true /\ wf_words latin1_isspace [u "Olá"; u "mundo"] /\
  split_ws latin1_isspace (join_sp [u "Olá"; u "mundo"]) = [u "Olá"; u "mundo"].
Proof.
  assert (H32 : latin1_isspace 32%N = true) by reflexivity.
  assert (Hws : wf_words latin1_isspace [u "Olá"; u "mundo"])
    by (repeat constructor; discriminate).
  split; [exact H32|]. split; [exact Hws|].
  exact (split_ws_join_sp_roundtrip latin1_isspace _ H32 Hws).
Defined.

(** X2. A message accepted by [MessageValidated] has no whitespace at
    either end, never two whitespace code points in a row, and ' ' as its
    only whitespace; it contains an alphanumeric code point and is no
    longer than the raw input. *)
Theorem message_validated_normal_form (isalnum isspace : N -> bool) (s r : str)
  (H32 : isspace 32%N = true)
  (Hdisj : forall c, isalnum c = true -> isspace c = false)
  (Hok : validate_message_validated_field isalnum isspace (JString s) = Ok r) :
  ws_normal isspace true r = true /\ existsb isalnum r = true /\
  (1 <= List.length r <= List.length s)%nat.
Proof.
  destruct (validated_field_ok isalnum isspace s r Hok) as [Hc _].
  destruct (content_output isalnum isspace H32 Hdisj s r Hc) as (Hn & Ha & Hne & Hl & _).
  split; [exact Hn|]. split; [exact Ha|].
  destruct r; [contradiction Hne; reflexivity|simpl in *; lia].
Qed.

Lemma message_validated_normal_form_witness :
  validate_message_validated_field latin1_isalnum latin1_isspace (JString (u " Olá" ++ [9%N] ++ u "  mundo "))
    = Ok (u "Olá mundo") /\
  ws_normal latin1_isspace true (u "Olá mundo") = true /\
  existsb latin1_isalnum (u "Olá mundo") = true /\
  (1 <= List.length (u "Olá mundo") <= List.length (u " Olá" ++ [9%N] ++ u "  mundo "))%nat.
Proof.
  assert (H : validate_message_validated_field latin1_isalnum latin1_isspace
                (JString (u " Olá" ++ [9%N] ++ u "  mundo ")) = Ok (u "Olá mundo"))
    by (vm_compute; reflexivity).
  split; [exact H|].
  exact (message_validated_normal_form latin1_isalnum latin1_isspace _ _ eq_refl
           latin1_alnum_not_space H).
Defined.

(** X3. [MessageValidated] is idempotent: a message it accepted is
    accepted again, unchanged. *)
Theorem message_validated_idempotent (isalnum isspace : N -> bool) (s r : str)
  (H32 : isspace 32%N = true)
  (Hdisj : forall c, isalnum c = true -> isspace c = false)
  (Hok : validate_message_validated_field isalnum isspace (JString s) = Ok r) :
  validate_message_validated_field isalnum isspace (JString r) = Ok r.
Proof.
  destruct (validated_field_ok isalnum isspace s r Hok) as [Hc Hls].
  destruct (content_output isalnum isspace H32 Hdisj s r Hc)
    as (Hn & Ha & Hne & Hl & Hsplit).
  destruct (content_ok_inv isalnum isspace s r Hc) as (Hr & _ & _).
  unfold validate_message_validated_field.
  replace (Nat.ltb (List.length r) 1) with false
    by (symmetry; apply Nat.ltb_ge; destruct r; [contradiction Hne; reflexivity|simpl; lia]).
  replace (Nat.ltb 1000 (List.length r)) with false by (symmetry; apply Nat.ltb_ge; lia).
  unfold validate_message_content. rewrite (ws_normal_strip isspace r Hn).
  destruct r as [|c t] eqn:Er; [contradiction Hne; reflexivity|].
  rewrite Ha. cbn [negb]. rewrite <- Er in *. f_equal.
  rewrite Hsplit. symmetry. exact Hr.
Qed.

Lemma message_validated_idempotent_witness :
  validate_message_validated_field latin1_isalnum latin1_isspace (JString (u " Olá" ++ [9%N] ++ u "  mundo "))
    = Ok (u "Olá mundo") /\
  validate_message_validated_field latin1_isalnum latin1_isspace (JString (u "Olá mundo"))
    = Ok (u "Olá mundo").
Proof.
  assert (H : validate_message_validated_field latin1_isalnum latin1_isspace
                (JString (u " Olá" ++ [9%N] ++ u "  mundo ")) = Ok (u "Olá mundo"))
    by (vm_compute; reflexivity).
  split; [exact H|].
  exact (message_validated_idempotent latin1_isalnum latin1_isspace _ _ eq_refl
           latin1_alnum_not_space H).
Defined.

(** X4. [MessageValidated] and [ChatRequest] accept the same raw messages;
    on acceptance the [MessageValidated] value is the [ChatRequest] value
    with its whitespace runs collapsed to single spaces. *)
Theorem message_validated_vs_chat_request (isalnum isspace : N -> bool) (s : str) :
  match validate_message_field isalnum isspace (JString s),
        validate_message_validated_field isalnum isspace (JString s) with
  | Ok v, Ok r => r = join_sp (split_ws isspace v)
  | Err _, Err _ => True
  | _, _ => False
  end.
Proof.
  unfold validate_message_field, validate_message_validated_field,
    message_min_length, message_max_length.
  destruct (Nat.ltb (List.length s) 1); [exact I|].
  destruct (Nat.ltb 1000 (List.length s)); [exact I|].
  unfold validate_message, validate_message_content.
  destruct (strip isspace s) as [|c t]; [exact I|].
  destruct (negb (existsb isalnum (c :: t))); [exact I|reflexivity].
Qed.

Section ManualProps.

Variable isalnum : N -> bool.
Variable isspace : N -> bool.
Variable lower : str -> str.






(** The decision of [validate_message_manual] on a non-empty input, as a
    chain of checks on the stripped text. *)
Lemma manual_nonempty : forall c s,
  validate_message_manual isalnum isspace lower (c :: s) =
  (let v := strip isspace (c :: s) in
   if Nat.ltb (List.length v) 1 then (false, manual_msg_short)
   else if Nat.ltb 1000 (List.length v) then (false, manual_msg_long)
   else if negb (existsb isalnum v) then (false, msg_alnum)
   else if existsb (fun word => contains word (lower v)) forbidden_words
   then (false, manual_msg_forbidden)
   else (true, [])).
Proof. reflexivity. Qed.

Lemma manual_accept_iff : forall s,
  validate_message_manual isalnum isspace lower s = (true, []) <->
  strip isspace s <> [] /\ (List.length (strip isspace s) <= 1000)%nat /\
  existsb isalnum (strip isspace s) = true /\
  existsb (fun word => contains word (lower (strip isspace s))) forbidden_words = false.
Proof.
  intros [|c s].
  - split; [discriminate|]. intros (H & _). contradiction H. reflexivity.
  - rewrite manual_nonempty. cbv zeta.
    destruct (strip isspace (c :: s)) as [|d v] eqn:Ev.
    + simpl. split; [discriminate|]. intros (H & _). contradiction H. reflexivity.
    + replace (Nat.ltb (List.length (d :: v)) 1) with false by reflexivity.
      destruct (Nat.ltb 1000 (List.length (d :: v))) eqn:E2.
      { apply Nat.ltb_lt in E2. split; [discriminate|]. intros (_ & H & _). lia. }
      apply Nat.ltb_ge in E2.
      destruct (existsb isalnum (d :: v)) eqn:E3; cbn [negb].
      2: { split; [discriminate|]. intros (_ & _ & H & _). discriminate H. }
      destruct (existsb (fun word => contains word (lower (d :: v))) forbidden_words).
      { split; [discriminate|]. intros (_ & _ & _ & H). discriminate H. }
      split; [intros _; repeat split; [discriminate|exact E2]|reflexivity].
Qed.

End ManualProps.

(** ** [validate_message_manual] *)


(** X6. The manual validator accepts a message exactly when its stripped
    text is non-empty, at most 1000 code points long, contains an
    alphanumeric code point and, lower-cased, contains neither "spam" nor
    "hack"; on acceptance the error text is empty. The length bound applies
    to the stripped text, not to the raw message. *)
Theorem manual_accepts_iff (isalnum isspace : N -> bool) (lower : str -> str) (s : str) :
  validate_message_manual isalnum isspace lower s = (true, []) <->
  strip isspace s <> [] /\ (List.length (strip isspace s) <= 1000)%nat /\
  existsb isalnum (strip isspace s) = true /\
  existsb (fun word => contains word (lower (strip isspace s))) forbidden_words = false.
Proof. apply manual_accept_iff. Qed.

(** X7. For a raw message of at most 1000 code points, the manual validator
    accepts it exactly when [ChatRequest] accepts it (with value its
    stripped text) and the stripped text holds no forbidden word. *)
Theorem manual_vs_chat_request (isalnum isspace : N -> bool) (lower : str -> str) (s : str)
  (Hlen : (List.length s <= 1000)%nat) :
  validate_message_manual isalnum isspace lower s = (true, []) <->
  validate_message_field isalnum isspace (JString s) = Ok (strip isspace s) /\
  existsb (fun word => contains word (lower (strip isspace s))) forbidden_words = false.
Proof.
  rewrite manual_accept_iff. pose proof (strip_length isspace s) as Hsl.
  split.
  - intros (Hne & _ & Ha & Hf). split; [|exact Hf].
    assert (Hs : s <> []) by (intros ->; apply Hne; reflexivity).
    rewrite validate_in_bounds by (destruct s; [contradiction Hs; reflexivity|simpl in *; lia]).
    unfold validate_message. cbv zeta.
    destruct (strip isspace s) as [|d v]; [contradiction Hne; reflexivity|].
    rewrite Ha. reflexivity.
  - intros (Hv & Hf).
    destruct (validate_field_ok isalnum isspace s _ Hv) as (_ & Hne & Ha & _).
    repeat split; [exact Hne|lia|exact Ha|exact Hf].
Qed.

Lemma manual_vs_chat_request_witness :
  (List.length (u "  Olá, tudo bem?  ") <= 1000)%nat /\
  validate_message_manual latin1_isalnum latin1_isspace latin1_lower (u "  Olá, tudo bem?  ")
    = (true, []) /\
  (validate_message_manual latin1_isalnum latin1_isspace latin1_lower (u "  Olá, tudo bem?  ")
     = (true, []) <->
   validate_message_field latin1_isalnum latin1_isspace (JString (u "  Olá, tudo bem?  "))
     = Ok (strip latin1_isspace (u "  Olá, tudo bem?  ")) /\
   existsb (fun word => contains word (latin1_lower (strip latin1_isspace (u "  Olá, tudo bem?  "))))
     forbidden_words = false).
Proof.
  assert (Hl : (List.length (u "  Olá, tudo bem?  ") <= 1000)%nat) by (vm_compute; lia).
  split; [exact Hl|]. split; [vm_compute; reflexivity|].
  exact (manual_vs_chat_request latin1_isalnum latin1_isspace latin1_lower _ Hl).
Defined.

(** ** [ChatRequestLogged] *)

(** X8. Every raw message that [ChatRequest] accepts is accepted by
    [ChatRequestLogged] with the same value, after one log entry holding the
    raw, unstripped message and its raw length. *)
Theorem logged_accepts_chat_request (isalnum isspace : N -> bool) (s v : str)
  (H : validate_message_field isalnum isspace (JString s) = Ok v) :
  validate_logged_field isspace (JString s) =
  ([LogEntrada s (Z.of_nat (List.length s))], Ok v).
Proof.
  destruct (validate_field_ok isalnum isspace s v H) as (-> & Hne & _ & Hl).
  assert (Hs : s <> []) by (intros ->; apply Hne; reflexivity).
  unfold validate_logged_field.
  replace (Nat.ltb (List.length s) 1) with false
    by (symmetry; apply Nat.ltb_ge; destruct s; [contradiction Hs; reflexivity|simpl; lia]).
  replace (Nat.ltb 1000 (List.length s)) with false by (symmetry; apply Nat.ltb_ge; lia).
  unfold log_and_validate. f_equal.
  destruct (strip isspace s); [contradiction Hne; reflexivity|reflexivity].
Qed.

Lemma logged_accepts_chat_request_witness :
  validate_message_field latin1_isalnum latin1_isspace (JString (u "  Olá  ")) = Ok (u "Olá") /\
  validate_logged_field latin1_isspace (JString (u "  Olá  ")) =
  ([LogEntrada (u "  Olá  ") 7], Ok (u "Olá")).
Proof.
  assert (H : validate_message_field latin1_isalnum latin1_isspace (JString (u "  Olá  "))
                = Ok (u "Olá")) by (vm_compute; reflexivity).
  split; [exact H|].
  exact (logged_accepts_chat_request latin1_isalnum latin1_isspace _ _ H).
Defined.

Lemma is_prefix_app : forall n b, is_prefix n (n ++ b) = true.
Proof.
  induction n as [|c n IH]; intros b; [reflexivity|].
  cbn [is_prefix app]. rewrite N.eqb_refl, IH. reflexivity.
Qed.

Lemma prefix_contains : forall n x, is_prefix n x = true -> contains n x = true.
Proof. intros n [|c x] H; cbn [contains]; rewrite H; reflexivity. Qed.

Lemma contains_app_mid : forall n a b, contains n (a ++ n ++ b) = true.
Proof.
  intros n a b. induction a as [|c a IH].
  - rewrite app_nil_l. apply prefix_contains, is_prefix_app.
  - cbn [app contains]. rewrite IH. apply orb_true_r.
Qed.

(** ** [chat] *)

(** X9. When [chat] falls through to its question rule (the message holds
    a "?" and its lower-cased form none of the keywords), the reply quotes
    the message verbatim between double quotes. *)
Theorem chat_question_quotes_message (rng : Type) (genrand_uint32 : rng -> Z * rng)
  (lower : str -> str) (fuel : nat) (clk : clock) (g : rng) (req : ChatRequest)
  (resp : ChatResponse) (evs : list event) (g' : rng)
  (H : chat genrand_uint32 lower fuel clk g req = Some (resp, evs, g'))
  (Hq : contains (u "?") (message req) = true)
  (Hkw : existsb (fun w => contains w (lower (message req)))
           [u "olá"; u "oi"; u "como vai"; u "tchau"; u "adeus"; u "ajuda"] = false) :
  contains ([34%N] ++ message req ++ [34%N]) (reply resp) = true.
Proof.
  destruct (chat_inv rng genrand_uint32 lower fuel clk g req resp evs g' H)
    as (r0 & _ & -> & _).
  cbn [existsb] in Hkw. rewrite orb_false_r in Hkw.
  repeat rewrite orb_false_iff in Hkw.
  destruct Hkw as (K1 & K2 & K3 & K4 & K5 & K6).
  unfold select_reply. rewrite K1, K2, K3, K4, K5, K6, Hq. cbn [orb].
  unfold reply_question.
  assert (E : forall x y z w : str, x ++ y ++ z ++ w = (x ++ y ++ z) ++ w)
    by (intros; rewrite !app_assoc; reflexivity).
  rewrite (E [34%N] (message req)). apply contains_app_mid.
Qed.

Lemma chat_question_quotes_message_witness :
  exists resp evs g',
    chat tape_next latin1_lower 5 sample_clock sample_tape
      (mkChatRequest (u "Qual é o seu nome?") None) = Some (resp, evs, g') /\
    contains (u "?") (u "Qual é o seu nome?") = true /\
    existsb (fun w => contains w (latin1_lower (u "Qual é o seu nome?")))
      [u "olá"; u "oi"; u "como vai"; u "tchau"; u "adeus"; u "ajuda"] = false /\
    contains ([34%N] ++ u "Qual é o seu nome?" ++ [34%N]) (reply resp) = true.
Proof.
  run_chat E. exists resp, evs, g'. split; [reflexivity|].
  assert (Hq : contains (u "?") (u "Qual é o seu nome?") = true) by (vm_compute; reflexivity).
  assert (Hkw : existsb (fun w => contains w (latin1_lower (u "Qual é o seu nome?")))
                  [u "olá"; u "oi"; u "como vai"; u "tchau"; u "adeus"; u "ajuda"] = false)
    by (vm_compute; reflexivity).
  split; [exact Hq|]. split; [exact Hkw|].
  exact (chat_question_quotes_message _ tape_next latin1_lower 5 sample_clock sample_tape
           (mkChatRequest (u "Qual é o seu nome?") None) resp evs g' E Hq Hkw).
Defined.

(** X10. How far [chat] advances the generator, the delay it sleeps and
    whether the call returns at all depend only on the generator state:
    neither the request nor the clock changes them ([random.random()] and
    [random.choice] are drawn on every path). *)
Theorem chat_randomness_independent (rng : Type) (genrand_uint32 : rng -> Z * rng)
  (lower : str -> str) (fuel : nat) (clk clk' : clock) (g : rng) (req req' : ChatRequest) :
  option_map (fun '(_, evs, g') => (nth_error evs 1, g'))
    (chat genrand_uint32 lower fuel clk g req) =
  option_map (fun '(_, evs, g') => (nth_error evs 1, g'))
    (chat genrand_uint32 lower fuel clk' g req').
Proof.
  unfold chat. destruct (random_random genrand_uint32 g) as [k g1].
  destruct (random_choice genrand_uint32 fuel BOT_RESPONSES g1) as [[r0 g2]|]; reflexivity.
Qed.

(** ** [POST /api/chat] *)

(** X11. An accepted request reaches [chat] with a message that is its own
    [strip()], holds an alphanumeric code point and has 1 to 1000 code
    points; that message is the one logged first and [message_length] is
    its length. *)
Theorem post_chat_accepted_message (rng : Type) (genrand_uint32 : rng -> Z * rng)
  (lower : str -> str) (isalnum isspace : N -> bool) (fuel : nat) (clk : clock)
  (g : rng) (r : raw_request) (resp : ChatResponse) (evs : list event) (g' : rng)
  (H : post_chat genrand_uint32 lower isalnum isspace fuel clk g r
         = Some (HTTP200 resp, evs, g')) :
  exists m uid rest,
    evs = LogReceived m uid :: rest /\
    strip isspace m = m /\ existsb isalnum m = true /\
    (1 <= List.length m <= 1000)%nat /\
    message_length resp = Some (Z.of_nat (List.length m)).
Proof.
  unfold post_chat in H.
  destruct (parse_request isalnum isspace r) as [req|errs] eqn:Ep; [|discriminate].
  destruct (chat genrand_uint32 lower fuel clk g req) as [[[resp0 evs0] g0]|] eqn:Ec;
    [|discriminate].
  injection H as <- <- <-.
  destruct (chat_inv rng genrand_uint32 lower fuel clk g req resp0 evs0 g0 Ec)
    as (r0 & _ & _ & _ & Hml & _ & Hevs).
  unfold parse_request in Ep.
  destruct (validate_message_field isalnum isspace (raw_message r)) as [m|e] eqn:Em;
    destruct (validate_user_id (raw_user_id r)) as [uid|e'];
    try discriminate.
  injection Ep as <-. cbn [message user_id] in *.
  destruct (raw_message r) as [| |s|] eqn:Er; try discriminate.
  destruct (validate_field_ok isalnum isspace s m Em) as (-> & Hne & Ha & Hl).
  exists (strip isspace s), uid, (List.tl evs0).
  split; [rewrite Hevs; reflexivity|].
  split; [apply strip_idem|]. split; [exact Ha|].
  split; [|exact Hml].
  pose proof (strip_length isspace s).
  destruct (strip isspace s); [contradiction Hne; reflexivity|simpl in *; lia].
Qed.

Lemma post_chat_accepted_message_witness :
  exists resp evs g',
    post_chat tape_next latin1_lower latin1_isalnum latin1_isspace 5 sample_clock
      sample_tape (mkRaw (JString (u "  Olá, bot!  ")) Absent) = Some (HTTP200 resp, evs, g') /\
    exists m uid rest,
      evs = LogReceived m uid :: rest /\
      strip latin1_isspace m = m /\ existsb latin1_isalnum m = true /\
      (1 <= List.length m <= 1000)%nat /\
      message_length resp = Some (Z.of_nat (List.length m)).
Proof.
  destruct (post_chat tape_next latin1_lower latin1_isalnum latin1_isspace 5 sample_clock
              sample_tape (mkRaw (JString (u "  Olá, bot!  ")) Absent)) as [[[o evs] g']|] eqn:E;
    [|vm_compute in E; discriminate].
  destruct o as [resp|errs]; [|vm_compute in E; discriminate].
  exists resp, evs, g'. split; [reflexivity|].
  exact (post_chat_accepted_message _ tape_next latin1_lower latin1_isalnum latin1_isspace
           5 sample_clock sample_tape _ resp evs g' E).
Defined.



Lemma round_half_even_error : forall x,
  (x - (1 # 2) <= inject_Z (round_half_even x) <= x + (1 # 2))%Q.
Proof.
  intros [n d]. unfold round_half_even. cbn [Qnum Qden].
  pose proof (Z.div_mod n (Zpos d) ltac:(lia)) as Hdm.
  pose proof (Z.mod_pos_bound n (Zpos d) ltac:(lia)) as Hr.
  rewrite Zmod_eq_full in Hr by lia.
  set (q := n / Zpos d) in *.
  assert (Hn : n = q * Zpos d + (n - q * Zpos d)) by lia.
  set (r := n - q * Zpos d) in *.
  assert (G : forall z, (z = q /\ 2 * r <= Zpos d) \/ (z = q + 1 /\ Zpos d <= 2 * r) ->
                ((n # d) - (1 # 2) <= inject_Z z <= (n # d) + (1 # 2))%Q).
  { intros z Hz. unfold Qle, Qminus, Qplus, Qopp, inject_Z. cbn [Qnum Qden].
    rewrite !Pos2Z.inj_mul. cbn. split; destruct Hz as [[-> Hz]|[-> Hz]]; nia. }
  destruct (2 * r <? Zpos d) eqn:E1; [apply G; left; split; [reflexivity|apply Z.ltb_lt in E1; lia]|].
  apply Z.ltb_ge in E1.
  destruct (Zpos d <? 2 * r) eqn:E2; [apply G; right; split; [reflexivity|lia]|].
  apply Z.ltb_ge in E2.
  destruct (Z.even q); apply G; [left|right]; split; (reflexivity || lia).
Qed.

Lemma randbelow_loop_nonneg : forall (rng : Type) (gen : rng -> Z * rng) fuel n k r g i g',
  randbelow_loop gen fuel n k r g = Some (i, g') -> 0 <= r -> 0 <= i.
Proof.
  intros rng gen. induction fuel as [|fuel IH]; intros n k r g i g' H Hr; simpl in H.
  - destruct (r <? n); [inversion H; subst; exact Hr|discriminate].
  - destruct (r <? n).
    + inversion H; subst; exact Hr.
    + unfold getrandbits in H. destruct (gen g) as [w g1].
      eapply IH; [exact H|].
      apply Z.shiftr_nonneg. unfold uint32. apply Z.mod_pos_bound. lia.
Qed.

(** ** Rounding and random numbers *)

(** X13. [round(x, 3)] is within half a thousandth of [x]: the number of
    thousandths it returns differs from [1000 * x] by at most [1/2]. *)
Theorem round3_error (x : Q) :
  (x * (1000 # 1) - (1 # 2) <= inject_Z (round3 x) <= x * (1000 # 1) + (1 # 2))%Q.
Proof. unfold round3. apply round_half_even_error. Qed.

(** X14. [0.5 + random.random()] is computed exactly while the sum is
    below 1, and above that is off from the exact sum by at most one unit
    of [2^-53] s, landing on an even numerator (a double of exponent 0). *)
Theorem delay_rounding_error (k : Z) (Hk : 0 <= k < 2 ^ 53) :
  (k < 2 ^ 52 -> delay_of k = 2 ^ 52 + k) /\
  (2 ^ 52 <= k -> Z.abs (delay_of k - (2 ^ 52 + k)) <= 1 /\ Z.even (delay_of k) = true).
Proof.
  unfold delay_of, round_ne_53.
  assert (P52 : 2 ^ 52 = 4503599627370496) by reflexivity.
  assert (P53 : 2 ^ 53 = 9007199254740992) by reflexivity.
  assert (P54 : 2 ^ (53 + 1) = 18014398509481984) by reflexivity.
  split; intros Hs.
  - rewrite (Z.log2_unique (2 ^ 52 + k) 52) by lia.
    replace (52 + 1 <=? 53) with true by reflexivity. reflexivity.
  - rewrite (Z.log2_unique (2 ^ 52 + k) 53) by lia.
    replace (53 + 1 <=? 53) with false by reflexivity.
    replace (Z.shiftl 1 (53 + 1 - 53 - 1)) with 1 by reflexivity.
    replace (53 + 1 - 53) with 1 by reflexivity.
    rewrite Z.shiftr_div_pow2, !Z.shiftl_mul_pow2 by lia.
    change (2 ^ 1) with 2.
    set (m := 2 ^ 52 + k) in *.
    pose proof (Z.div_mod m 2 ltac:(lia)) as Hdm.
    pose proof (Z.mod_pos_bound m 2 ltac:(lia)) as Hr.
    set (q := m / 2) in *.
    assert (Ev : forall j, Z.even (j * 2) = true)
      by (intros j; rewrite Z.mul_comm; apply Z.even_mul; reflexivity).
    destruct (m - q * 2 <? 1) eqn:E1;
      [apply Z.ltb_lt in E1; split; [lia|apply Ev]|].
    apply Z.ltb_ge in E1.
    destruct (1 <? m - q * 2) eqn:E2; [apply Z.ltb_lt in E2; lia|].
    apply Z.ltb_ge in E2.
    destruct (Z.even q); (split; [lia|apply Ev]).
Qed.

Lemma delay_rounding_error_witness :
  0 <= 2 ^ 53 - 3 < 2 ^ 53 /\
  delay_of (2 ^ 53 - 3) = 2 ^ 53 + 2 ^ 52 - 4 /\
  (2 ^ 53 - 3 < 2 ^ 52 -> delay_of (2 ^ 53 - 3) = 2 ^ 52 + (2 ^ 53 - 3)) /\
  (2 ^ 52 <= 2 ^ 53 - 3 ->
   Z.abs (delay_of (2 ^ 53 - 3) - (2 ^ 52 + (2 ^ 53 - 3))) <= 1 /\
   Z.even (delay_of (2 ^ 53 - 3)) = true).
Proof.
  assert (Hk : 0 <= 2 ^ 53 - 3 < 2 ^ 53) by lia.
  split; [exact Hk|]. split; [vm_compute; reflexivity|].
  exact (delay_rounding_error (2 ^ 53 - 3) Hk).
Defined.

(** X15. [random.getrandbits(k)], for [0 < k <= 32], returns an integer
    in [[0, 2^k)]. *)
Theorem getrandbits_range (rng : Type) (genrand_uint32 : rng -> Z * rng) (k : Z) (g : rng)
  (Hk : 0 < k <= 32) :
  0 <= fst (getrandbits genrand_uint32 k g) < 2 ^ k.
Proof.
  unfold getrandbits. destruct (genrand_uint32 g) as [w g1]. cbn [fst].
  unfold uint32. rewrite Z.shiftr_div_pow2 by lia.
  pose proof (Z.mod_pos_bound w (2 ^ 32) ltac:(lia)) as Hw.
  split; [apply Z.div_pos; lia|].
  apply Z.div_lt_upper_bound; [lia|].
  rewrite <- Z.pow_add_r by lia. replace (32 - k + k) with 32 by lia. lia.
Qed.

Lemma getrandbits_range_witness :
  0 < 3 <= 32 /\ fst (getrandbits tape_next 3 [4294967295]) = 7 /\
  0 <= fst (getrandbits tape_next 3 [4294967295]) < 2 ^ 3.
Proof.
  assert (Hk : 0 < 3 <= 32) by lia.
  split; [exact Hk|]. split; [reflexivity|].
  exact (getrandbits_range _ tape_next 3 [4294967295] Hk).
Defined.

(** X16. [random._randbelow(n)], when it returns, returns an index in
    [[0, n)]; so [random.choice] only yields elements of its sequence. *)
Theorem randbelow_range (rng : Type) (genrand_uint32 : rng -> Z * rng) (fuel : nat)
  (n : Z) (g : rng) (i : Z) (g' : rng)
  (H : randbelow genrand_uint32 fuel n g = Some (i, g')) :
  0 <= i < n.
Proof.
  unfold randbelow in H.
  destruct (getrandbits genrand_uint32 (Z.log2 n + 1) g) as [r g1] eqn:Eg.
  assert (Hr : 0 <= r).
  { unfold getrandbits in Eg. destruct (genrand_uint32 g) as [w g2].
    injection Eg as <- _. apply Z.shiftr_nonneg. unfold uint32.
    apply Z.mod_pos_bound. lia. }
  split.
  - eapply randbelow_loop_nonneg; [exact H|exact Hr].
  - eapply randbelow_loop_lt; [exact H|exact Hr].
Qed.

Lemma randbelow_range_witness :
  exists i g', randbelow tape_next 5 8 [4294967295; 1073741824] = Some (i, g') /\
  i = 4 /\ 0 <= i < 8.
Proof.
  destruct (randbelow tape_next 5 8 [4294967295; 1073741824]) as [[i g']|] eqn:E;
    [|vm_compute in E; discriminate].
  exists i, g'. split; [reflexivity|].
  split; [vm_compute in E; injection E as <- _; reflexivity|].
  exact (randbelow_range _ tape_next 5 8 [4294967295; 1073741824] i g' E).
Defined.

(** X17. [random.random()] returns [k * 2^-53] with [0 <= k < 2^53]: a
    value in [[0, 1)], whatever the words of the generator. *)
Theorem random_random_unit_interval (rng : Type) (genrand_uint32 : rng -> Z * rng) (g : rng) :
  0 <= fst (random_random genrand_uint32 g) < 2 ^ 53.
Proof. apply random_random_range. Qed.
